(** * The [search_index] management command of django-elasticsearch-dsl

    A shallow embedding of
    [src/django_elasticsearch_dsl/management/commands/search_index.py]
    and the properties of its filter resolution, its delete / rebuild
    chain and its alias-swapping reindex.

    Python [str] values are modelled as [string] (so: ASCII text),
    [str.lower] as the ASCII lowering of every character, [set(...)] as a
    [gset], and the command's side effects (the search backend, standard
    output, standard input and the clock) as one explicit [World] that is
    threaded through a state-and-exception monad. *)

From Stdlib Require Import Ascii String List Arith Lia Bool.
From stdpp Require Import base decidable countable gmap strings list fin_maps pretty.

Local Open Scope string_scope.
Local Open Scope list_scope.

(** ** Strings *)

(** [c.lower()] on one ASCII character: [A]..[Z] move to [a]..[z]. *)
Definition ascii_lower (c : ascii) : ascii :=
  let n := nat_of_ascii c in
  if (65 <=? n)%nat && (n <=? 90)%nat then ascii_of_nat (n + 32) else c.

(** [s.lower()]. *)
Fixpoint lower (s : string) : string :=
  match s with
  | EmptyString => EmptyString
  | String c s' => String (ascii_lower c) (lower s')
  end.

(** [", ".join(xs)]. *)
Fixpoint join (sep : string) (xs : list string) : string :=
  match xs with
  | [] => ""
  | [x] => x
  | x :: rest => x +:+ sep +:+ join sep rest
  end.

(** ** Registry *)

(** A Django model class, identified by what [model._meta] exposes to the
    command: [app_label], [model_name], and the class's [__name__]. *)
Record Model := mkModel {
  app_label : string;
  model_name : string;
  class_name : string
}.

#[global] Instance Model_eq_dec : EqDecision Model.
Proof. solve_decision. Defined.

#[global] Instance Model_countable : Countable Model.
Proof.
  refine (inj_countable'
            (fun m => (app_label m, model_name m, class_name m))
            (fun t => mkModel t.1.1 t.1.2 t.2) _).
  by intros [].
Defined.

(** A registered document class: [doc._doc_type.model],
    [doc._doc_type.index] (the index, or alias, it writes to) and the
    size of the queryset its record source yields. *)
Record Document := mkDocument {
  doc_model : Model;
  doc_index : string;
  doc_records : nat
}.

#[global] Instance Document_eq_dec : EqDecision Document.
Proof. solve_decision. Defined.

(** Modelled from the spec: the process-wide [registry] object of
    [django_elasticsearch_dsl.registries] (section 4.1).  It is a
    catalogue of document bindings, kept here in its iteration order. *)
Definition Registry := list Document.

(** Modelled from the spec: [registry.get_models()], every registered
    model once. *)
Definition get_models (reg : Registry) : list Model :=
  remove_dups (map doc_model reg).

(** Modelled from the spec: [registry.get_indices(models)], the distinct
    indices used by the documents of [models] (section 4.1:
    "deduplicates by alias"). *)
Definition get_indices (reg : Registry) (models : gset Model) : list string :=
  remove_dups (map doc_index (filter (fun d => doc_model d ∈ models) reg)).

(** Modelled from the spec: [registry.get_documents(models)], one entry
    per document type of [models]. *)
Definition get_documents (reg : Registry) (models : gset Model) : list Document :=
  filter (fun d => doc_model d ∈ models) reg.

(** ** Exceptions *)

Inductive Exn :=
| CommandError (msg : string)
| BackendError (status : nat) (target : string)
| EOFError.

#[global] Instance Exn_eq_dec : EqDecision Exn.
Proof. solve_decision. Defined.

(** ** Filter resolution: [_get_models] *)

(** The test of lines 72-80 for one model, [arg] already lowered: the
    [if] compares [app_label] as it is, the [elif] compares the lowered
    [app_label.model_name]. *)
Definition model_matches (arg : string) (model : Model) : bool :=
  if String.eqb (app_label model) arg then true
  else String.eqb (lower (app_label model) +:+ "." +:+ lower (model_name model)) arg.

(** Matching as section 4.1 of the specification words it, to compare
    with [model_matches]: a filter names a binding when, up to case, it is
    the binding's app-level identifier or its [app.model] identifier. *)
Definition spec_matches (filter : string) (model : Model) : bool :=
  String.eqb (lower (app_label model)) (lower filter)
  || String.eqb (lower (app_label model) +:+ "." +:+ lower (model_name model))
                (lower filter).

(** The inner [for model in registry.get_models()] loop; the state is
    the pair of [models] and [match_found]. *)
Fixpoint scan_models (arg : string) (candidates : list Model)
    (models : list Model) (match_found : bool) : list Model * bool :=
  match candidates with
  | [] => (models, match_found)
  | model :: rest =>
      if String.eqb (app_label model) arg then
        scan_models arg rest (models ++ [model]) true
      else if String.eqb (lower (app_label model) +:+ "." +:+ lower (model_name model)) arg then
        scan_models arg rest (models ++ [model]) true
      else scan_models arg rest models match_found
  end.

(** The outer [for arg in args] loop. *)
Fixpoint resolve_args (reg : Registry) (args : list string)
    (models : list Model) : Exn + list Model :=
  match args with
  | [] => inr models
  | arg :: rest =>
      let arg := lower arg in
      let '(models, match_found) := scan_models arg (get_models reg) models false in
      if negb match_found then
        inl (CommandError ("No model or app named " +:+ arg))
      else resolve_args reg rest models
  end.

(** [options['models']] is [None] when [--models] is absent and a list
    otherwise; both [None] and the empty list are falsy. *)
Definition _get_models (reg : Registry) (args : option (list string))
    : Exn + gset Model :=
  match args with
  | Some (arg :: rest) =>
      match resolve_args reg (arg :: rest) [] with
      | inl e => inl e
      | inr models => inr (list_to_set models)
      end
  | _ => inr (list_to_set (get_models reg))
  end.

(** ** The search backend *)

(** The backend's state: every concrete index with the set of aliases
    attached to it. *)
Abbreviation Backend := (gmap string (gset string)).

(** One action of an [update_aliases] body. *)
Inductive AliasAction :=
| Remove (alias index_pattern : string)
| Add (alias index : string).

#[global] Instance AliasAction_eq_dec : EqDecision AliasAction.
Proof. solve_decision. Defined.

(** Index patterns: [*] stands for any run of characters, every other
    character for itself. *)
Fixpoint glob_match (pat : string) : string -> bool :=
  match pat with
  | EmptyString => fun s => match s with EmptyString => true | _ => false end
  | String c pat' =>
      if Ascii.eqb c "*" then
        fix star (s : string) : bool :=
          glob_match pat' s
          || match s with EmptyString => false | String _ s' => star s' end
      else
        fun s =>
          match s with
          | EmptyString => false
          | String d s' => Ascii.eqb c d && glob_match pat' s'
          end
  end.

(** The indices an alias currently points at. *)
Definition alias_targets (alias : string) (b : Backend) : gset string :=
  dom (filter (fun kv => alias ∈ kv.2) b).

(** Modelled from the spec: the [SearchBackend] collaborator of section 6.
    [create_index] is rejected when the index exists; [init] (the
    document's [init], which saves the mapping) creates the index when it
    is absent; [delete_index], [refresh] and the alias additions answer
    404 for an index that is absent; a bulk write creates a missing
    index; [list_indices] yields the concrete indices whose name matches
    the pattern. *)
Definition be_create (name : string) (b : Backend) : Exn + Backend :=
  match b !! name with
  | Some _ => inl (BackendError 400 name)
  | None => inr (<[name := ∅]> b)
  end.

Definition be_init (name : string) (b : Backend) : Exn + Backend :=
  match b !! name with
  | Some _ => inr b
  | None => inr (<[name := ∅]> b)
  end.

Definition be_delete (name : string) (b : Backend) : Exn + Backend :=
  match b !! name with
  | Some _ => inr (delete name b)
  | None => inl (BackendError 404 name)
  end.

Definition be_refresh (name : string) (b : Backend) : Exn + Backend :=
  match b !! name with
  | Some _ => inr b
  | None => inl (BackendError 404 name)
  end.

Definition be_bulk (name : string) (b : Backend) : Exn + Backend :=
  if decide (name ∈ dom b ∨ alias_targets name b ≠ ∅) then inr b
  else inr (<[name := ∅]> b).

Definition be_put_alias (index alias : string) (b : Backend) : Exn + Backend :=
  match b !! index with
  | Some als => inr (<[index := als ∪ {[alias]}]> b)
  | None => inl (BackendError 404 index)
  end.

Definition be_remove_alias (alias pattern : string) (b : Backend) : Backend :=
  map_imap (fun index als =>
              Some (if glob_match pattern index then als ∖ {[alias]} else als)) b.

(** The actions of one [update_aliases] request are applied in order to
    one state; the request either yields the final state or fails as a
    whole. *)
Fixpoint be_update_aliases (actions : list AliasAction) (b : Backend)
    : Exn + Backend :=
  match actions with
  | [] => inr b
  | Remove alias pattern :: rest =>
      be_update_aliases rest (be_remove_alias alias pattern b)
  | Add alias index :: rest =>
      match be_put_alias index alias b with
      | inl e => inl e
      | inr b' => be_update_aliases rest b'
      end
  end.

Definition be_list (pattern : string) (b : Backend) : list string :=
  filter (fun index => glob_match pattern index = true) (elements (dom b)).

(** ** The clock *)

Record DateTime := mkDateTime {
  year : nat; month : nat; day : nat;
  hour : nat; minute : nat; second : nat
}.

Definition digit (n : nat) : ascii := ascii_of_nat (48 + n mod 10).

(** A two-digit, zero-padded field ([%m], [%d], [%H], [%M], [%S]). *)
Definition dec2 (n : nat) : string :=
  String (digit (n / 10)) (String (digit n) EmptyString).

(** The four-digit year field ([%Y]); every platform renders the years
    from 1000 on with these four digits. *)
Definition dec4 (n : nat) : string :=
  String (digit (n / 1000)) (String (digit (n / 100))
    (String (digit (n / 10)) (String (digit n) EmptyString))).

(** [d.strftime('%Y.%m.%d.%H.%M.%S')]. *)
Definition strftime (d : DateTime) : string :=
  dec4 (year d) +:+ "." +:+ dec2 (month d) +:+ "." +:+ dec2 (day d) +:+ "."
  +:+ dec2 (hour d) +:+ "." +:+ dec2 (minute d) +:+ "." +:+ dec2 (second d).

(** The readings a clock can give, with the year on four digits. *)
Definition valid_datetime (d : DateTime) : Prop :=
  1000 <= year d < 100 * 100 /\ 1 <= month d <= 12 /\ 1 <= day d <= 31
  /\ hour d < 24 /\ minute d < 60 /\ second d < 60.

(** Lexicographic combination of two comparisons. *)
Definition lex (c1 c2 : comparison) : comparison :=
  match c1 with
  | Eq => c2
  | Lt => Lt
  | Gt => Gt
  end.

(** Chronological order of two readings. *)
Definition datetime_compare (d1 d2 : DateTime) : comparison :=
  lex (Nat.compare (year d1) (year d2))
  (lex (Nat.compare (month d1) (month d2))
  (lex (Nat.compare (day d1) (day d2))
  (lex (Nat.compare (hour d1) (hour d2))
  (lex (Nat.compare (minute d1) (minute d2)) (Nat.compare (second d1) (second d2)))))).

(** ** The world of one command invocation *)

(** The backend requests the command issues. *)
Inductive Call :=
| CreateIndex (index : string)
| InitIndex (index : string)
| BulkWrite (index : string) (records : nat)
| RefreshIndex (index : string)
| PutAlias (index alias : string)
| UpdateAliases (actions : list AliasAction)
| GetIndices (pattern : string)
| DeleteIndex (index : string).

#[global] Instance Call_eq_dec : EqDecision Call.
Proof. solve_decision. Defined.

(** [trace] lists every request issued so far, oldest first, each with the
    backend state it left behind; [clock n] is what the [n]-th reading of
    [timezone.now()] returns. *)
Record World := mkWorld {
  backend : Backend;
  trace : list (Call * Backend);
  stdout : list string;
  stdin : list string;
  clock : nat -> DateTime;
  ticks : nat
}.

(** State and exceptions: a raised exception keeps the effects performed
    before it. *)
Definition M (A : Type) : Type := World -> (Exn + A) * World.

#[global] Instance M_ret : MRet M := fun A a w => (inr a, w).

#[global] Instance M_bind : MBind M := fun A B f m w =>
  match m w with
  | (inr a, w') => f a w'
  | (inl e, w') => (inl e, w')
  end.

Definition raise {A} (e : Exn) : M A := fun w => (inl e, w).

(** [for x in xs: body(x)]. *)
Fixpoint for_each {A} (xs : list A) (body : A -> M unit) : M unit :=
  match xs with
  | [] => mret tt
  | x :: rest => body x ;; for_each rest body
  end.

(** [self.stdout.write(line)]. *)
Definition stdout_write (line : string) : M unit := fun w =>
  (inr tt, mkWorld (backend w) (trace w) (stdout w ++ [line]) (stdin w)
                   (clock w) (ticks w)).

(** [input(prompt)]: shows the prompt and reads one line; end of input
    raises [EOFError]. *)
Definition input (prompt : string) : M string := fun w =>
  let out := stdout w ++ [prompt] in
  match stdin w with
  | [] => (inl EOFError,
           mkWorld (backend w) (trace w) out [] (clock w) (ticks w))
  | response :: rest =>
      (inr response,
       mkWorld (backend w) (trace w) out rest (clock w) (ticks w))
  end.

(** [timezone.now()]. *)
Definition now : M DateTime := fun w =>
  (inr (clock w (ticks w)),
   mkWorld (backend w) (trace w) (stdout w) (stdin w) (clock w) (S (ticks w))).

(** One request to the backend: it is recorded in the trace whether it
    succeeds or not; a status listed in [ignore] is not raised. *)
Definition request (c : Call) (ignore : list nat)
    (op : Backend -> Exn + Backend) : M unit := fun w =>
  let record b :=
    mkWorld b (trace w ++ [(c, b)]) (stdout w) (stdin w) (clock w) (ticks w) in
  match op (backend w) with
  | inr b' => (inr tt, record b')
  | inl (BackendError status target) =>
      if bool_decide (status ∈ ignore) then (inr tt, record (backend w))
      else (inl (BackendError status target), record (backend w))
  | inl e => (inl e, record (backend w))
  end.

(** [es.indices.get(pattern)], iterated: the matching index names. *)
Definition get_indices_matching (pattern : string) : M (list string) := fun w =>
  (inr (be_list pattern (backend w)),
   mkWorld (backend w) (trace w ++ [(GetIndices pattern, backend w)])
           (stdout w) (stdin w) (clock w) (ticks w)).

(** ** The command *)

Record Options := mkOptions {
  opt_action : option string;
  opt_models : option (list string);
  opt_force : bool
}.

(** The body of the loop of lines 113-115. *)
Definition delete_body (index : string) : M unit :=
  stdout_write ("Deleting index '" +:+ index +:+ "'");;
  request (DeleteIndex index) [404] (be_delete index).

(** The body of the loop of lines 90-92. *)
Definition create_body (index : string) : M unit :=
  stdout_write ("Creating index '" +:+ index +:+ "'");;
  request (CreateIndex index) [] (be_create index).

(** The body of the loop of lines 95-100. *)
Definition populate_body (doc : Document) : M unit :=
  stdout_write ("Indexing " +:+ pretty (doc_records doc) +:+ " '"
                +:+ class_name (doc_model doc) +:+ "' objects");;
  request (BulkWrite (doc_index doc) (doc_records doc)) []
          (be_bulk (doc_index doc)).

(** The body of the loop of lines 152-153: a delete with no status
    ignored. *)
Definition reclaim_body (old_index : string) : M unit :=
  request (DeleteIndex old_index) [] (be_delete old_index).

(** The trace entries that deleting [l] in turn, from [b], leaves. *)
Fixpoint delete_trace (b : Backend) (l : list string) : list (Call * Backend) :=
  match l with
  | [] => []
  | i :: rest => (DeleteIndex i, delete i b) :: delete_trace (delete i b) rest
  end.

(** The generation pattern of an alias, ['{}-*'.format(alias)]. *)
Definition generation_pattern (alias : string) : string := alias +:+ "-*".

(** [options['models']] as a list of filter elements. *)
Definition filter_elements (args : option (list string)) : list string :=
  default [] args.

Section Command.

Variable reg : Registry.

Definition _create (models : gset Model) (options : Options) : M unit :=
  for_each (get_indices reg models) create_body.

Definition _populate (models : gset Model) (options : Options) : M unit :=
  for_each (get_documents reg models) populate_body.

(** Lines 113-116: the deleting loop and [return True]. *)
Definition delete_indices (models : gset Model) : M bool :=
  for_each (get_indices reg models) delete_body;;
  mret true.

(** The prompt of lines 106-108. *)
Definition delete_prompt (models : gset Model) : string :=
  let index_names := get_indices reg models in
  "Are you sure you want to delete the '"
  +:+ join ", " index_names +:+ "' indexes? [n/Y]: ".

Definition _delete (models : gset Model) (options : Options) : M bool :=
  if negb (opt_force options) then
    response ← input (delete_prompt models);
    if negb (String.eqb (lower response) "y") then
      stdout_write "Aborted";;
      mret false
    else delete_indices models
  else delete_indices models.

Definition _rebuild (models : gset Model) (options : Options) : M unit :=
  ok ← _delete models options;
  if negb ok then mret tt
  else
    _create models options;;
    _populate models options.

Definition _next_index_name (name : string) : M string :=
  d ← now;
  mret (name +:+ "-" +:+ strftime d).

(** The body of the loop of [_reindex], for one document. *)
Definition reindex_document (doc : Document) : M unit :=
  let alias := doc_index doc in
  next_index ← _next_index_name alias;
  request (InitIndex next_index) [] (be_init next_index);;
  stdout_write ("Creating index '" +:+ next_index +:+ "'");;
  stdout_write ("Indexing " +:+ pretty (doc_records doc) +:+ " '"
                +:+ class_name (doc_model doc) +:+ "' objects");;
  request (BulkWrite next_index (doc_records doc)) [] (be_bulk next_index);;
  request (RefreshIndex next_index) [] (be_refresh next_index);;
  stdout_write ("Updating alias '" +:+ alias +:+ "' -> '" +:+ next_index +:+ "'");;
  request (PutAlias next_index alias) [] (be_put_alias next_index alias);;
  let actions := [Remove alias (generation_pattern alias);
                  Add alias next_index] in
  request (UpdateAliases actions) [] (be_update_aliases actions);;
  indices ← get_indices_matching (generation_pattern alias);
  let old_indices := filter (fun index => index ≠ next_index) indices in
  for_each old_indices reclaim_body.

Definition _reindex (models : gset Model) (options : Options) : M unit :=
  for_each (get_documents reg models) reindex_document.

(** [not options['action']]: [None] and the empty string are falsy. *)
Definition no_action (options : Options) : bool :=
  match opt_action options with
  | None => true
  | Some a => String.eqb a ""
  end.

Definition handle (options : Options) : M unit :=
  if no_action options then
    raise (CommandError ("No action specified. Must be one of"
                         +:+ " '--create','--populate', '--delete' or '--rebuild' ."))
  else
    let action := default "" (opt_action options) in
    match _get_models reg (opt_models options) with
    | inl e => raise e
    | inr models =>
        if String.eqb action "create" then _create models options
        else if String.eqb action "populate" then _populate models options
        else if String.eqb action "delete" then
          _delete models options;; mret tt
        else if String.eqb action "rebuild" then _rebuild models options
        else if String.eqb action "reindex" then _reindex models options
        else
          raise (CommandError ("Invalid action. Must be one of"
                               +:+ " '--create','--populate', '--delete', '--rebuild' or '--reindex' ."))
    end.

End Command.

(** ** A small installation to run the command on *)

Definition post : Model := mkModel "blog" "post" "Post".
Definition comment : Model := mkModel "blog" "comment" "Comment".
Definition item : Model := mkModel "Shop" "item" "Item".

Definition demo_registry : Registry :=
  [ mkDocument post "articles" 3;
    mkDocument comment "comments" 5;
    mkDocument item "items" 2 ].

Definition articles_doc : Document := mkDocument post "articles" 3.

Definition epoch (s : nat) : DateTime := mkDateTime 2020 1 2 0 0 s.

Definition demo_world (b : Backend) (answers : list string) : World :=
  mkWorld b [] [] answers epoch 0.


(** A backend where the alias [articles] is on an earlier generation. *)
Definition generation_world : World :=
  demo_world {[ "articles-2020.01.01.00.00.00" := {[ "articles" ]} ]} [].

(** A backend where the alias [articles] is on an index that is not named
    like a generation. *)
Definition legacy_world : World :=
  demo_world {[ "articles_v1" := {[ "articles" ]} ]} [].

(** The requests recorded in a world, each with the indices the alias
    pointed at once the request was served. *)
Definition alias_history (alias : string) (w : World)
    : list (Call * gset string) :=
  map (fun cb => (cb.1, alias_targets alias cb.2)) (trace w).

(** A computation that, when it returns, has left the input and the
    clock alone and has read the clock [d] times. *)
Definition frames (d : nat) {A} (m : M A) : Prop :=
  forall w a w', m w = (inr a, w') ->
    stdin w' = stdin w /\ clock w' = clock w /\ ticks w' = ticks w + d.


(** A backend with a generation of the alias [articles-blog] and an
    index of another name. *)
Definition neighbour_world : World :=
  demo_world {[ "articles-blog-2019.01.01.00.00.00" := {[ "articles-blog" ]};
                "books" := {[ "library" ]} ]} [].

(** * Properties *)

(** ** Filter resolution *)

Lemma scan_models_filter arg candidates models match_found :
  scan_models arg candidates models match_found =
  (models ++ filter (fun m => model_matches arg m = true) candidates,
   match_found || existsb (model_matches arg) candidates).
Proof.
  revert models match_found.
  induction candidates as [|model rest IH]; intros models match_found; simpl.
  - by rewrite app_nil_r, orb_false_r.
  - rewrite filter_cons.
    assert (Hstep :
      model_matches arg model =
      (String.eqb (app_label model) arg
       || String.eqb (lower (app_label model) +:+ "." +:+ lower (model_name model)) arg))
      by (unfold model_matches; by destruct (String.eqb (app_label model) arg)).
    destruct (String.eqb (app_label model) arg);
      [|destruct (String.eqb _ arg)]; simpl in Hstep; rewrite IH, Hstep.
    + rewrite decide_True by done. simpl.
      by rewrite <- app_assoc, orb_true_r.
    + rewrite decide_True by done. simpl.
      by rewrite <- app_assoc, orb_true_r.
    + rewrite decide_False by done. done.
Qed.

Lemma existsb_none {A} (f : A -> bool) (l : list A) :
  existsb f l = false <-> forall x, x ∈ l -> f x = false.
Proof.
  induction l as [|a l IH]; simpl.
  - split; [intros _ x Hx; by apply elem_of_nil in Hx | done].
  - rewrite orb_false_iff, IH. split.
    + intros [Ha Hl] x [->|Hx]%elem_of_cons; auto.
    + intros H. split; [apply H; left | intros x Hx; apply H; by right].
Qed.

(** What the loop over the arguments computes: it fails at the first
    argument that no registered model matches. *)
Lemma resolve_args_fails reg args models :
  (exists e, resolve_args reg args models = inl e) <->
  (exists arg, arg ∈ args /\
     forall m, m ∈ get_models reg -> model_matches (lower arg) m = false).
Proof.
  revert models. induction args as [|arg rest IH]; intros models; simpl.
  - split; [intros [e He]; discriminate | intros (arg & Harg & _)].
    by apply elem_of_nil in Harg.
  - rewrite scan_models_filter. simpl.
    destruct (existsb (model_matches (lower arg)) (get_models reg)) eqn:Hex; simpl.
    + rewrite IH. split.
      * intros (a & Ha & Hno). exists a. split; [by right | done].
      * intros (a & [->|Ha]%elem_of_cons & Hno).
        -- apply existsb_none in Hno. congruence.
        -- by exists a.
    + split; [intros _ | by eauto].
      exists arg. split; [left | by apply existsb_none].
Qed.

Lemma resolve_args_error reg args models e :
  resolve_args reg args models = inl e ->
  exists arg, arg ∈ args /\ e = CommandError ("No model or app named " +:+ lower arg).
Proof.
  revert models. induction args as [|arg rest IH]; intros models; simpl; [done|].
  rewrite scan_models_filter. simpl.
  destruct (existsb _ _); simpl.
  - intros (a & Ha & ->)%IH. exists a. split; [by right | done].
  - intros [= <-]. exists arg. split; [left | done].
Qed.

Lemma resolve_args_registered reg args models result :
  resolve_args reg args models = inr result ->
  (forall m, m ∈ models -> m ∈ get_models reg) ->
  forall m, m ∈ result -> m ∈ get_models reg.
Proof.
  revert models. induction args as [|arg rest IH]; intros models; simpl.
  - intros [= <-]. done.
  - rewrite scan_models_filter. simpl.
    destruct (existsb _ _); simpl; [|done].
    intros Hres Hin. eapply IH; [done|].
    intros m [Hm|Hm]%elem_of_app; [by apply Hin|].
    by apply list_elem_of_filter in Hm as [_ Hm].
Qed.

Lemma get_models_registered reg m :
  m ∈ get_models reg <-> exists d, d ∈ reg /\ doc_model d = m.
Proof.
  unfold get_models. rewrite elem_of_remove_dups, list_elem_of_fmap.
  split; intros (d & H1 & H2); exists d; by split.
Qed.

Lemma model_matches_spec arg m :
  model_matches arg m = true <->
  app_label m = arg \/
  lower (app_label m) +:+ "." +:+ lower (model_name m) = arg.
Proof.
  unfold model_matches.
  destruct (String.eqb (app_label m) arg) eqn:E1.
  - apply String.eqb_eq in E1. tauto.
  - apply String.eqb_neq in E1. rewrite String.eqb_eq. tauto.
Qed.

Lemma get_models_fails reg args :
  (exists e, _get_models reg args = inl e) <->
  (exists arg, arg ∈ filter_elements args /\
     forall m, m ∈ get_models reg -> model_matches (lower arg) m = false).
Proof.
  destruct args as [[|arg rest]|]; unfold _get_models, filter_elements, default.
  - split; [intros [e He]; discriminate | intros (a & Ha & _)].
    by apply elem_of_nil in Ha.
  - rewrite <- (resolve_args_fails reg (arg :: rest) []).
    destruct (resolve_args reg (arg :: rest) []) as [e|models] eqn:E.
    + split; intros _; by eexists.
    + split; intros [e He]; discriminate.
  - split; [intros [e He]; discriminate | intros (a & Ha & _)].
    by apply elem_of_nil in Ha.
Qed.

(** Under the test the code applies ([model_matches]): [_get_models]
    raises exactly when some filter element matches no registered model;
    the exception is a [CommandError] naming that element, it carries no
    models, and [handle] then ends with the world it started from:
    nothing was written and no backend request was issued for the models
    the other elements matched. *)
Theorem get_models_fails_iff_unmatched reg options w :
  no_action options = false ->
  ((exists e, _get_models reg (opt_models options) = inl e) <->
   (exists arg, arg ∈ filter_elements (opt_models options) /\
      forall m, m ∈ get_models reg -> model_matches (lower arg) m = false))
  /\ (forall e, _get_models reg (opt_models options) = inl e ->
       handle reg options w = (inl e, w) /\
       exists arg, arg ∈ filter_elements (opt_models options) /\
         e = CommandError ("No model or app named " +:+ lower arg)).
Proof.
  intros Hact. split; [apply get_models_fails|].
  intros e He. split.
  - unfold handle. by rewrite Hact, He.
  - destruct (opt_models options) as [[|arg rest]|];
      unfold _get_models in He; try discriminate.
    destruct (resolve_args reg (arg :: rest) []) as [e'|models] eqn:E;
      [|discriminate].
    injection He as <-. by apply resolve_args_error in E.
Qed.

Lemma get_models_fails_iff_unmatched_witness :
  handle demo_registry
    (mkOptions (Some "delete") (Some ["blog.post"; "nonexistent"]) true)
    (demo_world {[ "articles" := ∅ ]} [])
  = (inl (CommandError "No model or app named nonexistent"),
     demo_world {[ "articles" := ∅ ]} []).
Proof.
  exact (proj1 (proj2
    (get_models_fails_iff_unmatched demo_registry
       (mkOptions (Some "delete") (Some ["blog.post"; "nonexistent"]) true)
       (demo_world {[ "articles" := ∅ ]} []) eq_refl)
    (CommandError "No model or app named nonexistent") eq_refl)).
Defined.

(** C5: the empty filter (an absent [--models] too) resolves to the set of
    all registered models, and whatever a filter list resolves to is a
    subset of that set. *)
Theorem get_models_subset_of_all reg args models :
  _get_models reg args = inr models ->
  _get_models reg (Some []) = inr (list_to_set (get_models reg))
  /\ _get_models reg None = inr (list_to_set (get_models reg))
  /\ (forall m, m ∈ (list_to_set (get_models reg) : gset Model) <->
                 exists d, d ∈ reg /\ doc_model d = m)
  /\ models ⊆ list_to_set (get_models reg).
Proof.
  intros Hres. split; [done|]. split; [done|]. split.
  - intros m. rewrite elem_of_list_to_set. apply get_models_registered.
  - destruct args as [[|arg rest]|]; unfold _get_models in Hres;
      try (injection Hres as <-; done).
    destruct (resolve_args reg (arg :: rest) []) as [e|l] eqn:E; [discriminate|].
    injection Hres as <-.
    intros m. rewrite !elem_of_list_to_set.
    eapply resolve_args_registered; [exact E|].
    intros m' Hm'. by apply elem_of_nil in Hm'.
Qed.


Lemma get_models_subset_of_all_witness :
  {[ post; comment ]} ⊆ (list_to_set (get_models demo_registry) : gset Model).
Proof.
  apply (get_models_subset_of_all demo_registry (Some ["BLOG"]) {[ post; comment ]}).
  compute_done.
Defined.

(** C4, on the code: the app-level form compares [app_label] as it is
    with the lowered filter, so a label that has an upper-case letter is
    matched by no spelling of itself, while the qualified form, which
    lowers the label, is matched whatever the case. *)
Theorem app_label_match_is_case_sensitive :
  _get_models [mkDocument item "items" 2] (Some ["Shop"])
  = inl (CommandError "No model or app named shop")
  /\ _get_models [mkDocument item "items" 2] (Some ["shop"])
     = inl (CommandError "No model or app named shop")
  /\ _get_models [mkDocument item "items" 2] (Some ["SHOP.Item"])
     = inr {[ item ]}
  /\ _get_models [mkDocument item "items" 2] (Some ["shop.item"])
     = inr {[ item ]}.
Proof. compute_done. Qed.

(** ** Delete *)

(** With [ignore=404] the request leaves [delete index b] behind whether
    or not the index was there, and never raises. *)
Lemma delete_body_run index w :
  exists w',
    delete_body index w = (inr tt, w')
    /\ backend w' = delete index (backend w)
    /\ trace w' = trace w ++ [(DeleteIndex index, delete index (backend w))]
    /\ stdout w' = stdout w ++ ["Deleting index '" +:+ index +:+ "'"]
    /\ stdin w' = stdin w /\ clock w' = clock w /\ ticks w' = ticks w.
Proof.
  unfold delete_body, mbind, M_bind, stdout_write, request, be_delete. simpl.
  destruct (backend w !! index) eqn:E.
  - eexists. split; [reflexivity|]. simpl. done.
  - eexists. split; [reflexivity|]. simpl. rewrite (delete_id _ _ E). done.
Qed.

Lemma delete_loop_run l w :
  exists w',
    for_each l delete_body w = (inr tt, w')
    /\ backend w' = foldl (fun b index => delete index b) (backend w) l
    /\ map fst (trace w') = map fst (trace w) ++ map DeleteIndex l
    /\ stdin w' = stdin w /\ clock w' = clock w /\ ticks w' = ticks w.
Proof.
  revert w. induction l as [|index rest IH]; intros w.
  - exists w. simpl. by rewrite app_nil_r.
  - destruct (delete_body_run index w) as (w1 & Hrun & Hb & Ht & _ & Hi & Hc & Hk).
    destruct (IH w1) as (w2 & Hrun2 & Hb2 & Ht2 & Hi2 & Hc2 & Hk2).
    exists w2. split.
    + simpl. unfold mbind, M_bind. by rewrite Hrun.
    + rewrite Hb2, Ht2, Hi2, Hc2, Hk2, Hb, Ht, Hi, Hc, Hk.
      rewrite map_app. simpl. rewrite <- app_assoc. done.
Qed.

Lemma delete_indices_run reg models w :
  exists w',
    delete_indices reg models w = (inr true, w')
    /\ backend w' =
       foldl (fun b index => delete index b) (backend w) (get_indices reg models)
    /\ map fst (trace w')
       = map fst (trace w) ++ map DeleteIndex (get_indices reg models)
    /\ stdin w' = stdin w /\ clock w' = clock w /\ ticks w' = ticks w.
Proof.
  destruct (delete_loop_run (get_indices reg models) w) as (w' & Hrun & H).
  exists w'. split; [|exact H].
  unfold delete_indices, mbind, M_bind. by rewrite Hrun.
Qed.

Lemma foldl_delete_lookup (l : list string) (b : Backend) i :
  foldl (fun b index => delete index b) b l !! i
  = if decide (i ∈ l) then None else b !! i.
Proof.
  revert b. induction l as [|j l IH]; intros b.
  - destruct (decide (i ∈ [])) as [H|_]; [by apply elem_of_nil in H | done].
  - change (foldl (fun b index => delete index b) b (j :: l))
      with (foldl (fun b index => delete index b) (delete j b) l).
    rewrite IH.
    destruct (decide (i ∈ l)) as [Hl|Hl], (decide (i ∈ j :: l)) as [Hjl|Hjl];
      try done.
    + exfalso. apply Hjl. by right.
    + apply elem_of_cons in Hjl as [->|?]; [|done]. apply lookup_delete_eq.
    + apply lookup_delete_ne. intros ->. apply Hjl. left.
Qed.

Lemma foldl_delete_absent (l : list string) (b : Backend) :
  (forall i, i ∈ l -> b !! i = None) ->
  foldl (fun b index => delete index b) b l = b.
Proof.
  intros H. apply map_eq. intros i. rewrite foldl_delete_lookup.
  destruct (decide (i ∈ l)); [symmetry; by apply H | done].
Qed.

(** The ways [_delete] can go: forced, end of input, declined, accepted. *)
Lemma delete_cases reg models options w :
  (opt_force options = true /\
   _delete reg models options w = delete_indices reg models w)
  \/ (opt_force options = false /\ stdin w = [] /\
      exists w', _delete reg models options w = (inl EOFError, w')
        /\ backend w' = backend w /\ trace w' = trace w)
  \/ (exists response rest, opt_force options = false /\
        stdin w = response :: rest /\ lower response <> "y" /\
        exists w', _delete reg models options w = (inr false, w')
          /\ backend w' = backend w /\ trace w' = trace w
          /\ stdout w' = stdout w ++ [delete_prompt reg models; "Aborted"]
          /\ stdin w' = rest)
  \/ (exists response rest, opt_force options = false /\
        stdin w = response :: rest /\ lower response = "y" /\
        exists w', _delete reg models options w = delete_indices reg models w'
          /\ backend w' = backend w /\ trace w' = trace w /\ stdin w' = rest
          /\ clock w' = clock w /\ ticks w' = ticks w).
Proof.
  unfold _delete. destruct (opt_force options); simpl; [by left|].
  right. unfold mbind, M_bind, input.
  destruct (stdin w) as [|response rest]; [left; eauto 10|].
  right. destruct (String.eqb (lower response) "y") eqn:E; simpl.
  - right. apply String.eqb_eq in E. exists response, rest.
    repeat split; try done. eexists. split; [reflexivity|]. done.
  - left. apply String.eqb_neq in E. exists response, rest.
    repeat split; try done. eexists. split; [reflexivity|]. simpl.
    rewrite <- app_assoc. done.
Qed.

Lemma ascii_lower_y c :
  ascii_lower c = "y"%char <-> c = "y"%char \/ c = "Y"%char.
Proof.
  destruct c as [[] [] [] [] [] [] [] []]; vm_compute;
    (split; [intros H; first [discriminate H | by left | by right]
            | intros [H|H]; first [discriminate H | reflexivity]]).
Qed.

Lemma lower_y response :
  lower response = "y" <-> response = "y" \/ response = "Y".
Proof.
  destruct response as [|c [|c' rest]]; simpl.
  - split; [discriminate | intros [?|?]; discriminate].
  - split.
    + intros [= H]. apply ascii_lower_y in H as [->| ->]; auto.
    + intros [[= ->]|[= ->]]; reflexivity.
  - split; [discriminate | intros [?|?]; discriminate].
Qed.

(** C6: an unforced delete whose confirmation is not affirmative returns
    [False] (a value, not an exception; a completed delete returns
    [True]), and neither the backend nor the list of requests sent to it
    has changed: no delete request was made.  Only the prompt and
    [Aborted] were written. *)
Theorem declined_delete_aborts reg models options w response rest :
  opt_force options = false ->
  stdin w = response :: rest ->
  lower response <> "y" ->
  exists w',
    _delete reg models options w = (inr false, w')
    /\ backend w' = backend w
    /\ trace w' = trace w
    /\ stdout w' = stdout w ++ [delete_prompt reg models; "Aborted"]
    /\ stdin w' = rest
    /\ (forall w0, exists w1, delete_indices reg models w0 = (inr true, w1)).
Proof.
  intros Hforce Hin Hno.
  destruct (delete_cases reg models options w)
    as [[Hf _]|[(_ & Hnil & _)|[(r & rs & _ & Hin' & _ & w' & H)|(r & rs & _ & Hin' & Hy & _)]]].
  - congruence.
  - congruence.
  - rewrite Hin in Hin'. injection Hin' as <- <-.
    exists w'. destruct H as (H1 & H2 & H3 & H4 & H5).
    repeat split; try done.
    intros w0. destruct (delete_indices_run reg models w0) as (w1 & Hrun & _).
    by exists w1.
  - rewrite Hin in Hin'. injection Hin' as <- <-. done.
Qed.

Lemma declined_delete_aborts_witness :
  exists w',
    _delete demo_registry {[ post ]} (mkOptions (Some "delete") None false)
            (demo_world {[ "articles" := ∅ ]} ["n"]) = (inr false, w')
    /\ backend w' = backend (demo_world {[ "articles" := ∅ ]} ["n"])
    /\ trace w' = trace (demo_world {[ "articles" := ∅ ]} ["n"])
    /\ stdout w' = stdout (demo_world {[ "articles" := ∅ ]} ["n"])
                   ++ [delete_prompt demo_registry {[ post ]}; "Aborted"]
    /\ stdin w' = []
    /\ (forall w0, exists w1,
          delete_indices demo_registry {[ post ]} w0 = (inr true, w1)).
Proof.
  refine (declined_delete_aborts demo_registry {[ post ]}
            (mkOptions (Some "delete") None false)
            (demo_world {[ "articles" := ∅ ]} ["n"]) "n" [] eq_refl eq_refl _).
  compute_done.
Defined.


(** C10: without [-f] the answer counts as a yes exactly when its
    lowering is the one-character string [y], that is for [y] and [Y]
    only; any other answer, [yes] among them, takes the abort path. *)
Theorem confirmation_accepts_only_y reg models options w response rest :
  opt_force options = false ->
  stdin w = response :: rest ->
  ((_delete reg models options w).1 = inr true <-> lower response = "y")
  /\ ((_delete reg models options w).1 = inr false <-> lower response <> "y")
  /\ (lower response = "y" <-> response = "y" \/ response = "Y")
  /\ (response = "yes" -> (_delete reg models options w).1 = inr false).
Proof.
  intros Hforce Hin.
  assert (Hcase :
    (lower response = "y" /\ (_delete reg models options w).1 = inr true)
    \/ (lower response <> "y" /\ (_delete reg models options w).1 = inr false)).
  { destruct (delete_cases reg models options w)
      as [[Hf _]|[(_ & Hnil & _)|[(r & rs & _ & Hin' & Hn & w' & H & _)
                                 |(r & rs & _ & Hin' & Hy & w' & H & _)]]];
      try congruence.
    - rewrite Hin in Hin'. injection Hin' as <- <-. right. by rewrite H.
    - rewrite Hin in Hin'. injection Hin' as <- <-. left. split; [done|].
      rewrite H. destruct (delete_indices_run reg models w') as (w1 & -> & _).
      done. }
  split; [|split; [|split]].
  - destruct Hcase as [[Hy Hr]|[Hn Hr]]; rewrite Hr; split; try done.
  - destruct Hcase as [[Hy Hr]|[Hn Hr]]; rewrite Hr; split; try done.
  - apply lower_y.
  - intros ->. destruct Hcase as [[Hy Hr]|[Hn Hr]]; [discriminate Hy | done].
Qed.

Lemma confirmation_accepts_only_y_witness :
  (_delete demo_registry {[ post ]} (mkOptions (Some "delete") None false)
           (demo_world {[ "articles" := ∅ ]} ["yes"])).1 = inr false.
Proof.
  refine (proj2 (proj2 (proj2
    (confirmation_accepts_only_y demo_registry {[ post ]}
       (mkOptions (Some "delete") None false)
       (demo_world {[ "articles" := ∅ ]} ["yes"]) "yes" [] eq_refl eq_refl)))
    eq_refl).
Defined.


(** Once the indices of [models] are gone, a delete does not change the
    backend, whatever its options and whatever is typed. *)
Lemma delete_when_absent reg models options w r w' :
  (forall i, i ∈ get_indices reg models -> backend w !! i = None) ->
  _delete reg models options w = (r, w') ->
  backend w' = backend w
  /\ (r = inr true \/ r = inr false \/ r = inl EOFError)
  /\ (opt_force options = true -> r = inr true).
Proof.
  intros Habs Hrun.
  destruct (delete_cases reg models options w)
    as [[Hf H]|[(Hf & _ & w1 & H & Hb & _)
               |[(r1 & rs & Hf & _ & _ & w1 & H & Hb & _)
                |(r1 & rs & Hf & _ & _ & w1 & H & Hb & _)]]];
    rewrite H in Hrun.
  - destruct (delete_indices_run reg models w) as (w2 & Hd & Hb2 & _).
    rewrite Hd in Hrun. injection Hrun as <- <-.
    rewrite Hb2, foldl_delete_absent by done. auto.
  - injection Hrun as <- <-. split; [done|]. split; [auto | congruence].
  - injection Hrun as <- <-. split; [done|]. split; [auto | congruence].
  - destruct (delete_indices_run reg models w1) as (w2 & Hd & Hb2 & _).
    rewrite Hd in Hrun. injection Hrun as <- <-.
    rewrite Hb2, foldl_delete_absent; [auto|].
    intros i Hi. rewrite Hb. by apply Habs.
Qed.

Lemma delete_true_removes reg models options w w1 :
  _delete reg models options w = (inr true, w1) ->
  forall i, i ∈ get_indices reg models -> backend w1 !! i = None.
Proof.
  intros Hrun i Hi.
  destruct (delete_cases reg models options w)
    as [[Hf H]|[(Hf & _ & w0 & H & _)
               |[(r1 & rs & Hf & _ & _ & w0 & H & _)
                |(r1 & rs & Hf & _ & _ & w0 & H & _)]]];
    rewrite H in Hrun; try discriminate.
  - destruct (delete_indices_run reg models w) as (w2 & Hd & Hb2 & _).
    rewrite Hd in Hrun. injection Hrun as <-.
    rewrite Hb2, foldl_delete_lookup. by rewrite decide_True.
  - destruct (delete_indices_run reg models w0) as (w2 & Hd & Hb2 & _).
    rewrite Hd in Hrun. injection Hrun as <-.
    rewrite Hb2, foldl_delete_lookup. by rewrite decide_True.
Qed.

(** C7: after a delete that went through, every index of the bindings is
    absent, so each request of a second delete is answered 404; that
    status is ignored: the second delete leaves the backend as it found
    it and raises no backend error.  It returns [True] when forced (or
    confirmed); without [-f] it can only otherwise return [False] or stop
    at the end of the input. *)
Theorem delete_twice_is_noop reg models options1 options2 w w1 :
  _delete reg models options1 w = (inr true, w1) ->
  (forall i, i ∈ get_indices reg models ->
     be_delete i (backend w1) = inl (BackendError 404 i))
  /\ backend (_delete reg models options2 w1).2 = backend w1
  /\ (forall status target,
        (_delete reg models options2 w1).1 <> inl (BackendError status target))
  /\ ((_delete reg models options2 w1).1 = inr true
      \/ (_delete reg models options2 w1).1 = inr false
      \/ (_delete reg models options2 w1).1 = inl EOFError)
  /\ (opt_force options2 = true ->
        (_delete reg models options2 w1).1 = inr true).
Proof.
  intros Hfirst.
  pose proof (delete_true_removes _ _ _ _ _ Hfirst) as Habs.
  destruct (_delete reg models options2 w1) as [r w2] eqn:Hsecond.
  destruct (delete_when_absent _ _ _ _ _ _ Habs Hsecond) as (Hb & Hr & Hf).
  split; [|split; [|split; [|split]]]; simpl.
  - intros i Hi. unfold be_delete. by rewrite (Habs i Hi).
  - done.
  - intros status target. destruct Hr as [->|[->| ->]]; discriminate.
  - done.
  - done.
Qed.

Lemma delete_twice_is_noop_witness :
  backend
    (_delete demo_registry {[ post ]} (mkOptions (Some "delete") None true)
       (_delete demo_registry {[ post ]} (mkOptions (Some "delete") None true)
          (demo_world {[ "articles" := ∅; "other" := ∅ ]} [])).2).2
  = backend
      (_delete demo_registry {[ post ]} (mkOptions (Some "delete") None true)
         (demo_world {[ "articles" := ∅; "other" := ∅ ]} [])).2.
Proof.
  assert (H : _delete demo_registry {[ post ]}
                (mkOptions (Some "delete") None true)
                (demo_world {[ "articles" := ∅; "other" := ∅ ]} [])
              = (inr true,
                 (_delete demo_registry {[ post ]}
                    (mkOptions (Some "delete") None true)
                    (demo_world {[ "articles" := ∅; "other" := ∅ ]} [])).2)).
  { apply injective_projections; [compute_done | reflexivity]. }
  exact (proj1 (proj2
    (delete_twice_is_noop demo_registry {[ post ]}
       (mkOptions (Some "delete") None true)
       (mkOptions (Some "delete") None true) _ _ H))).
Defined.

(** ** Rebuild *)

Lemma create_loop_run l w :
  NoDup l ->
  (forall i, i ∈ l -> backend w !! i = None) ->
  exists w',
    for_each l create_body w = (inr tt, w')
    /\ map fst (trace w') = map fst (trace w) ++ map CreateIndex l
    /\ (forall i, i ∈ l -> is_Some (backend w' !! i)).
Proof.
  revert w. induction l as [|index rest IH]; intros w Hnd Habs.
  - exists w. simpl. rewrite app_nil_r. split; [done|]. split; [done|].
    intros i Hi. by apply elem_of_nil in Hi.
  - apply NoDup_cons in Hnd as [Hnotin Hnd].
    pose proof (Habs index (list_elem_of_here _ _)) as Hfree.
    set (b1 := <[index := ∅]> (backend w) : Backend).
    set (w1 := mkWorld b1 (trace w ++ [(CreateIndex index, b1)])
                 (stdout w ++ ["Creating index '" +:+ index +:+ "'"])
                 (stdin w) (clock w) (ticks w)).
    assert (Hstep : create_body index w = (inr tt, w1)).
    { unfold create_body, mbind, M_bind, stdout_write, request, be_create.
      simpl. by rewrite Hfree. }
    destruct (IH w1 Hnd) as (w2 & Hrun & Ht & Hin).
    { intros i Hi. simpl. unfold b1. rewrite lookup_insert_ne.
      - apply Habs. by right.
      - intros ->. done. }
    exists w2. split; [|split].
    + simpl. unfold mbind, M_bind. by rewrite Hstep.
    + rewrite Ht. simpl. rewrite map_app. simpl. by rewrite <- app_assoc.
    + intros i [->|Hi]%elem_of_cons; [|by apply Hin].
      destruct (decide (index ∈ rest)); [done|].
      clear -Hrun Hnotin. revert w1 Hrun.
      assert (Hkeep : forall l (v w' : World),
                 for_each l create_body v = (inr tt, w') ->
                 is_Some (backend v !! index) -> is_Some (backend w' !! index)).
      { clear. induction l as [|j l IHl]; intros v w' Hrun Hv.
        - injection Hrun as <-. done.
        - simpl in Hrun. unfold mbind, M_bind in Hrun.
          destruct (create_body j v) as [[e|[]] v1] eqn:Hj; [discriminate|].
          apply (IHl v1 w' Hrun).
          unfold create_body, mbind, M_bind, stdout_write, request, be_create
            in Hj. simpl in Hj.
          destruct (backend v !! j) eqn:Ej; simpl in Hj; [discriminate|].
          injection Hj as <-. simpl.
          destruct (decide (j = index)) as [->|Hne];
            [by rewrite lookup_insert_eq | by rewrite lookup_insert_ne]. }
      intros w1 Hrun. apply (Hkeep rest w1 w2 Hrun). simpl.
      unfold b1. by rewrite lookup_insert_eq.
Qed.

Lemma populate_loop_run docs w :
  exists w',
    for_each docs populate_body w = (inr tt, w')
    /\ map fst (trace w')
       = map fst (trace w)
         ++ map (fun d => BulkWrite (doc_index d) (doc_records d)) docs.
Proof.
  revert w. induction docs as [|doc rest IH]; intros w.
  - exists w. simpl. by rewrite app_nil_r.
  - assert (Hstep : exists w1,
       populate_body doc w = (inr tt, w1)
       /\ map fst (trace w1)
          = map fst (trace w) ++ [BulkWrite (doc_index doc) (doc_records doc)]).
    { unfold populate_body, mbind, M_bind, stdout_write, request, be_bulk.
      simpl. destruct (decide _); eexists; (split; [reflexivity|]); simpl;
        by rewrite map_app. }
    destruct Hstep as (w1 & Hstep & Ht1).
    destruct (IH w1) as (w2 & Hrun & Ht2).
    exists w2. split.
    + simpl. unfold mbind, M_bind. by rewrite Hstep.
    + rewrite Ht2, Ht1. simpl. by rewrite <- app_assoc.
Qed.

(** What a delete leaves behind, by its result. *)
Lemma delete_outcome reg models options w r w1 :
  _delete reg models options w = (r, w1) ->
  (r = inr true
   /\ map fst (trace w1)
      = map fst (trace w) ++ map DeleteIndex (get_indices reg models)
   /\ forall i, i ∈ get_indices reg models -> backend w1 !! i = None)
  \/ ((r = inr false \/ r = inl EOFError)
      /\ trace w1 = trace w /\ backend w1 = backend w).
Proof.
  intros Hrun.
  destruct (delete_cases reg models options w)
    as [[Hf H]|[(Hf & _ & w0 & H & Hb & Ht)
               |[(r1 & rs & Hf & _ & _ & w0 & H & Hb & Ht & _)
                |(r1 & rs & Hf & _ & _ & w0 & H & Hb & Ht & _)]]];
    rewrite H in Hrun.
  - destruct (delete_indices_run reg models w) as (w2 & Hd & Hb2 & Ht2 & _).
    rewrite Hd in Hrun. injection Hrun as <- <-. left.
    split; [done|]. split; [done|].
    intros i Hi. rewrite Hb2, foldl_delete_lookup. by rewrite decide_True.
  - injection Hrun as <- <-. right. auto.
  - injection Hrun as <- <-. right. auto.
  - destruct (delete_indices_run reg models w0) as (w2 & Hd & Hb2 & Ht2 & _).
    rewrite Hd in Hrun. injection Hrun as <- <-. left.
    split; [done|]. split; [by rewrite Ht2, Ht|].
    intros i Hi. rewrite Hb2, foldl_delete_lookup. by rewrite decide_True.
Qed.

(** C8: [_rebuild] runs the delete first.  When the delete returns
    [False] (a declined confirmation), or raises, the rebuild stops there:
    no request at all has reached the backend, so nothing was created or
    populated.  When the delete returns [True], the create runs in the
    world the delete left, the populate in the world the create left,
    both succeed, and the requests sent are the deletes, then the
    creates, then the bulk writes, in this order. *)
Theorem rebuild_runs_delete_create_populate reg models options w :
  (forall w1, _delete reg models options w = (inr false, w1) ->
     _rebuild reg models options w = (inr tt, w1)
     /\ trace w1 = trace w /\ backend w1 = backend w)
  /\ (forall e w1, _delete reg models options w = (inl e, w1) ->
        _rebuild reg models options w = (inl e, w1)
        /\ trace w1 = trace w /\ backend w1 = backend w)
  /\ (forall w1, _delete reg models options w = (inr true, w1) ->
        exists w2 w3,
          _create reg models options w1 = (inr tt, w2)
          /\ _populate reg models options w2 = (inr tt, w3)
          /\ _rebuild reg models options w = (inr tt, w3)
          /\ map fst (trace w3)
             = map fst (trace w)
               ++ map DeleteIndex (get_indices reg models)
               ++ map CreateIndex (get_indices reg models)
               ++ map (fun d => BulkWrite (doc_index d) (doc_records d))
                      (get_documents reg models)).
Proof.
  split; [|split].
  - intros w1 Hdel. split.
    + unfold _rebuild, mbind, M_bind. by rewrite Hdel.
    + destruct (delete_outcome _ _ _ _ _ _ Hdel)
        as [[? _]|(_ & Ht & Hb)]; [discriminate | done].
  - intros e w1 Hdel. split.
    + unfold _rebuild, mbind, M_bind. by rewrite Hdel.
    + destruct (delete_outcome _ _ _ _ _ _ Hdel)
        as [[? _]|(_ & Ht & Hb)]; [discriminate | done].
  - intros w1 Hdel.
    destruct (delete_outcome _ _ _ _ _ _ Hdel)
      as [(_ & Ht1 & Habs)|([?|?] & _)]; [|discriminate..].
    destruct (create_loop_run (get_indices reg models) w1)
      as (w2 & Hcreate & Ht2 & _);
      [apply NoDup_remove_dups | exact Habs |].
    destruct (populate_loop_run (get_documents reg models) w2)
      as (w3 & Hpop & Ht3).
    exists w2, w3. split; [exact Hcreate|]. split; [exact Hpop|]. split.
    + unfold _rebuild, mbind, M_bind. rewrite Hdel. simpl.
      unfold _create, _populate in *. by rewrite Hcreate.
    + rewrite Ht3, Ht2, Ht1. by rewrite <- !app_assoc.
Qed.

Lemma rebuild_runs_delete_create_populate_witness :
  _rebuild demo_registry {[ post ]} (mkOptions (Some "rebuild") None false)
           (demo_world {[ "articles" := ∅ ]} ["no"])
  = (inr tt,
     (_delete demo_registry {[ post ]} (mkOptions (Some "rebuild") None false)
        (demo_world {[ "articles" := ∅ ]} ["no"])).2)
  /\ trace (_delete demo_registry {[ post ]}
              (mkOptions (Some "rebuild") None false)
              (demo_world {[ "articles" := ∅ ]} ["no"])).2
     = trace (demo_world {[ "articles" := ∅ ]} ["no"])
  /\ backend (_delete demo_registry {[ post ]}
                (mkOptions (Some "rebuild") None false)
                (demo_world {[ "articles" := ∅ ]} ["no"])).2
     = backend (demo_world {[ "articles" := ∅ ]} ["no"]).
Proof.
  refine (proj1 (rebuild_runs_delete_create_populate demo_registry {[ post ]}
                   (mkOptions (Some "rebuild") None false)
                   (demo_world {[ "articles" := ∅ ]} ["no"])) _ _).
  apply injective_projections; [compute_done | reflexivity].
Defined.

(** ** Generation names *)

Lemma lex_assoc c1 c2 c3 : lex (lex c1 c2) c3 = lex c1 (lex c2 c3).
Proof. by destruct c1. Qed.

Lemma string_compare_cons c1 c2 s1 s2 :
  String.compare (String c1 s1) (String c2 s2)
  = lex (Ascii.compare c1 c2) (String.compare s1 s2).
Proof. simpl. by destruct (Ascii.compare c1 c2). Qed.

Lemma ascii_compare_refl c : Ascii.compare c c = Eq.
Proof. unfold Ascii.compare. apply N.compare_refl. Qed.

Lemma string_compare_prefix p s t :
  String.compare (p +:+ s) (p +:+ t) = String.compare s t.
Proof.
  induction p as [|c p IH]; [done|].
  simpl. by rewrite ascii_compare_refl.
Qed.

Lemma digit_compare x y :
  Ascii.compare (digit x) (digit y) = Nat.compare (x mod 10) (y mod 10).
Proof.
  unfold digit.
  pose proof (Nat.mod_upper_bound x 10) as Hx.
  pose proof (Nat.mod_upper_bound y 10) as Hy.
  generalize dependent (x mod 10). generalize dependent (y mod 10).
  intros j Hj i Hi.
  assert (Hi' : i < 10) by (apply Hi; lia).
  assert (Hj' : j < 10) by (apply Hj; lia).
  clear Hi Hj.
  do 10 (destruct i as [|i]; [do 10 (destruct j as [|j]; [reflexivity|]); lia|]).
  lia.
Qed.

(** Comparing two numbers is comparing their quotients, then their
    remainders. *)
Lemma compare_div_mod k a b :
  0 < k ->
  lex (Nat.compare (a / k) (b / k)) (Nat.compare (a mod k) (b mod k))
  = Nat.compare a b.
Proof.
  intros Hk.
  pose proof (Nat.div_mod_eq a k) as Ha.
  pose proof (Nat.div_mod_eq b k) as Hb.
  pose proof (Nat.mod_upper_bound a k) as Ha'.
  pose proof (Nat.mod_upper_bound b k) as Hb'.
  destruct (Nat.compare_spec (a / k) (b / k)) as [Hq|Hq|Hq]; simpl.
  - destruct (Nat.compare_spec (a mod k) (b mod k)) as [Hr|Hr|Hr];
      symmetry; [apply Nat.compare_eq_iff | apply Nat.compare_lt_iff
                | apply Nat.compare_gt_iff]; nia.
  - symmetry. apply Nat.compare_lt_iff. nia.
  - symmetry. apply Nat.compare_gt_iff. nia.
Qed.

Lemma dec2_app a r :
  dec2 a +:+ r = String (digit (a / 10)) (String (digit a) r).
Proof. reflexivity. Qed.

Lemma dec2_compare a b r1 r2 :
  a < 100 -> b < 100 ->
  String.compare (dec2 a +:+ r1) (dec2 b +:+ r2)
  = lex (Nat.compare a b) (String.compare r1 r2).
Proof.
  intros Ha Hb. rewrite !dec2_app.
  rewrite !string_compare_cons, !digit_compare, <- lex_assoc.
  rewrite (Nat.mod_small (a / 10)), (Nat.mod_small (b / 10))
    by (apply Nat.Div0.div_lt_upper_bound; lia).
  by rewrite compare_div_mod by lia.
Qed.

Lemma dec2_compare_last a b :
  a < 100 -> b < 100 ->
  String.compare (dec2 a) (dec2 b) = Nat.compare a b.
Proof.
  intros Ha Hb.
  change (String.compare (dec2 a +:+ "") (dec2 b +:+ "") = Nat.compare a b).
  rewrite dec2_compare by done. simpl. by destruct (Nat.compare a b).
Qed.

Lemma dec4_split n :
  dec4 n = dec2 (n / 100) +:+ dec2 (n mod 100).
Proof.
  rewrite dec2_app. unfold dec4, dec2, digit.
  assert (H1 : n / 100 / 10 = n / 1000)
    by (rewrite Nat.Div0.div_div; reflexivity).
  pose proof (Nat.Div0.mod_mul_r n 10 10) as Hmod. simpl (10 * 10) in Hmod.
  pose proof (Nat.mod_upper_bound n 10) as Hn0.
  pose proof (Nat.mod_upper_bound (n / 10) 10) as Hn1.
  assert (H2 : n mod 100 / 10 = (n / 10) mod 10).
  { rewrite Hmod. symmetry.
    apply (Nat.div_unique _ 10 _ (n mod 10)); lia. }
  assert (H3 : (n mod 100) mod 10 = n mod 10).
  { rewrite Hmod. symmetry.
    apply (Nat.mod_unique _ 10 ((n / 10) mod 10)); lia. }
  rewrite H1, H2, H3, Nat.Div0.mod_mod. reflexivity.
Qed.

Lemma dec4_compare a b r1 r2 :
  a < 100 * 100 -> b < 100 * 100 ->
  String.compare (dec4 a +:+ r1) (dec4 b +:+ r2)
  = lex (Nat.compare a b) (String.compare r1 r2).
Proof.
  intros Ha Hb. rewrite !dec4_split.
  assert (Happ : forall x y z, (dec2 x +:+ dec2 y) +:+ z = dec2 x +:+ (dec2 y +:+ z))
    by (intros; reflexivity).
  rewrite !Happ.
  rewrite dec2_compare by (apply Nat.Div0.div_lt_upper_bound; lia).
  rewrite dec2_compare by (apply Nat.mod_upper_bound; lia).
  by rewrite <- lex_assoc, compare_div_mod by lia.
Qed.

Lemma dot_compare r1 r2 :
  String.compare ("." +:+ r1) ("." +:+ r2) = String.compare r1 r2.
Proof. apply (string_compare_prefix "."). Qed.

Lemma strftime_compare d1 d2 :
  valid_datetime d1 -> valid_datetime d2 ->
  String.compare (strftime d1) (strftime d2) = datetime_compare d1 d2.
Proof.
  intros (Hy1 & Hm1 & Hd1 & HH1 & HM1 & HS1) (Hy2 & Hm2 & Hd2 & HH2 & HM2 & HS2).
  unfold strftime, datetime_compare.
  rewrite dec4_compare, dot_compare by lia.
  rewrite dec2_compare, dot_compare by lia.
  rewrite dec2_compare, dot_compare by lia.
  rewrite dec2_compare, dot_compare by lia.
  rewrite dec2_compare, dot_compare by lia.
  by rewrite dec2_compare_last by lia.
Qed.

Lemma string_length_app s t :
  String.length (s +:+ t) = String.length s + String.length t.
Proof.
  induction s as [|c s IH]; [reflexivity|].
  change (S (String.length (s +:+ t)) = S (String.length s + String.length t)).
  by rewrite IH.
Qed.

Lemma datetime_compare_eq d1 d2 :
  datetime_compare d1 d2 = Eq <-> d1 = d2.
Proof.
  split; [|intros <-; unfold datetime_compare; by rewrite !Nat.compare_refl].
  destruct d1 as [y1 m1 a1 h1 i1 s1], d2 as [y2 m2 a2 h2 i2 s2].
  unfold datetime_compare. simpl.
  destruct (Nat.compare_spec y1 y2); try discriminate.
  destruct (Nat.compare_spec m1 m2); try discriminate.
  destruct (Nat.compare_spec a1 a2); try discriminate.
  destruct (Nat.compare_spec h1 h2); try discriminate.
  destruct (Nat.compare_spec i1 i2); try discriminate.
  destruct (Nat.compare_spec s1 s2); try discriminate.
  intros _. congruence.
Qed.

(** C9: the name of the next generation is the alias, a hyphen, and the
    clock reading laid out as four digits of year and two digits each of
    month, day, hour, minute and second, separated by dots: twenty
    characters after the alias.  Two such names of one alias compare, as
    strings, the way their readings compare in time; they are equal
    exactly when the readings are the same second. *)
Theorem generation_names_sort_by_time name w1 w2 :
  valid_datetime (clock w1 (ticks w1)) ->
  valid_datetime (clock w2 (ticks w2)) ->
  exists n1 n2,
    (_next_index_name name w1).1 = inr n1
    /\ (_next_index_name name w2).1 = inr n2
    /\ n1 = (let d := clock w1 (ticks w1) in
             name +:+ "-" +:+ dec4 (year d) +:+ "." +:+ dec2 (month d)
             +:+ "." +:+ dec2 (day d) +:+ "." +:+ dec2 (hour d)
             +:+ "." +:+ dec2 (minute d) +:+ "." +:+ dec2 (second d))
    /\ String.length n1 = String.length name + 20
    /\ String.compare n1 n2
       = datetime_compare (clock w1 (ticks w1)) (clock w2 (ticks w2))
    /\ (String.ltb n1 n2 = true <->
        datetime_compare (clock w1 (ticks w1)) (clock w2 (ticks w2)) = Lt)
    /\ (n1 = n2 <-> clock w1 (ticks w1) = clock w2 (ticks w2)).
Proof.
  intros Hv1 Hv2.
  set (d1 := clock w1 (ticks w1)) in *. set (d2 := clock w2 (ticks w2)) in *.
  exists (name +:+ "-" +:+ strftime d1), (name +:+ "-" +:+ strftime d2).
  assert (Hcmp : String.compare (name +:+ "-" +:+ strftime d1)
                                (name +:+ "-" +:+ strftime d2)
                 = datetime_compare d1 d2).
  { rewrite string_compare_prefix, (string_compare_prefix "-").
    by apply strftime_compare. }
  split; [done|]. split; [done|]. split; [done|]. split; [|split; [|split]].
  - rewrite string_length_app. reflexivity.
  - exact Hcmp.
  - unfold String.ltb. rewrite Hcmp.
    destruct (datetime_compare d1 d2); split; done.
  - rewrite <- datetime_compare_eq, <- Hcmp. split.
    + intros ->. clear. induction (name +:+ "-" +:+ strftime d2) as [|c s IH];
        [done|]. simpl. by rewrite ascii_compare_refl.
    + apply String.compare_eq_iff.
Qed.

Lemma generation_names_sort_by_time_witness :
  exists n1 n2,
    (_next_index_name "articles" (mkWorld ∅ [] [] [] epoch 0)).1 = inr n1
    /\ (_next_index_name "articles" (mkWorld ∅ [] [] [] epoch 7)).1 = inr n2
    /\ n1 = "articles-2020.01.02.00.00.00"
    /\ String.length n1 = 28
    /\ String.compare n1 n2 = Lt
    /\ (String.ltb n1 n2 = true <-> datetime_compare (epoch 0) (epoch 7) = Lt)
    /\ (n1 = n2 <-> epoch 0 = epoch 7).
Proof.
  apply (generation_names_sort_by_time "articles"
           (mkWorld ∅ [] [] [] epoch 0) (mkWorld ∅ [] [] [] epoch 7));
    unfold valid_datetime; simpl; lia.
Defined.


(** ** Reindex *)

Lemma glob_star p s :
  glob_match (String "*" p) s
  = glob_match p s
    || match s with
       | EmptyString => false
       | String _ s' => glob_match (String "*" p) s'
       end.
Proof. destruct s; reflexivity. Qed.

Lemma glob_star_any s : glob_match "*" s = true.
Proof.
  induction s as [|c s IH]; [reflexivity|].
  rewrite glob_star, IH. apply orb_true_r.
Qed.

Lemma glob_char c p d s :
  Ascii.eqb c "*" = false ->
  glob_match (String c p) (String d s) = Ascii.eqb c d && glob_match p s.
Proof.
  intros H.
  change (glob_match (String c p) (String d s))
    with ((if Ascii.eqb c "*" then glob_match (String "*" p)
           else fun s0 =>
             match s0 with
             | EmptyString => false
             | String d0 s' => Ascii.eqb c d0 && glob_match p s'
             end) (String d s)).
  by rewrite H.
Qed.

(** Every generation name matches the generation pattern of its alias. *)
Lemma generation_matches_pattern alias suffix :
  glob_match (generation_pattern alias) (alias +:+ "-" +:+ suffix) = true.
Proof.
  unfold generation_pattern.
  induction alias as [|c alias IH].
  - change (glob_match (String "-" "*") (String "-" suffix) = true).
    rewrite glob_char by reflexivity.
    by rewrite glob_star_any.
  - change (glob_match (String c (alias +:+ "-*"))
              (String c (alias +:+ "-" +:+ suffix)) = true).
    destruct (Ascii.eqb c "*") eqn:E.
    + apply Ascii.eqb_eq in E as ->.
      rewrite glob_star, glob_star, IH. apply orb_true_iff. right.
      apply orb_true_l.
    + rewrite glob_char by done. by rewrite Ascii.eqb_refl.
Qed.

Lemma elem_of_alias_targets alias (b : Backend) i :
  i ∈ alias_targets alias b <-> exists als, b !! i = Some als /\ alias ∈ als.
Proof.
  unfold alias_targets. rewrite elem_of_dom. split.
  - intros [als [H1 H2]%map_lookup_filter_Some]. eauto.
  - intros (als & H1 & H2). exists als. by apply map_lookup_filter_Some.
Qed.

Lemma lookup_remove_alias alias pattern (b : Backend) i :
  be_remove_alias alias pattern b !! i
  = (fun als => if glob_match pattern i then als ∖ {[alias]} else als)
      <$> b !! i.
Proof.
  unfold be_remove_alias. rewrite map_lookup_imap.
  by destruct (b !! i).
Qed.

Lemma bind_ok {A B} (m : M A) (f : A -> M B) w a w' :
  m w = (inr a, w') -> (m ≫= f) w = f a w'.
Proof. intros H. unfold mbind, M_bind. by rewrite H. Qed.

Lemma request_ok c ignore op w b' :
  op (backend w) = inr b' ->
  request c ignore op w
  = (inr tt, mkWorld b' (trace w ++ [(c, b')]) (stdout w) (stdin w)
                     (clock w) (ticks w)).
Proof. intros H. unfold request. by rewrite H. Qed.

(** The reclaiming loop succeeds when it is given distinct, existing
    indices. *)
Lemma reclaim_loop_run l w :
  NoDup l ->
  (forall i, i ∈ l -> is_Some (backend w !! i)) ->
  exists w',
    for_each l reclaim_body w = (inr tt, w')
    /\ trace w' = trace w ++ delete_trace (backend w) l
    /\ backend w' = foldl (fun b i => delete i b) (backend w) l
    /\ stdin w' = stdin w /\ clock w' = clock w /\ ticks w' = ticks w.
Proof.
  revert w. induction l as [|i rest IH]; intros w Hnd Hin.
  - exists w. simpl. by rewrite app_nil_r.
  - apply NoDup_cons in Hnd as [Hnotin Hnd].
    destruct (Hin i (list_elem_of_here _ _)) as [als Hals].
    assert (Hstep : reclaim_body i w
              = (inr tt, mkWorld (delete i (backend w))
                           (trace w ++ [(DeleteIndex i, delete i (backend w))])
                           (stdout w) (stdin w) (clock w) (ticks w))).
    { unfold reclaim_body. apply request_ok. unfold be_delete. by rewrite Hals. }
    destruct (IH (mkWorld (delete i (backend w))
                    (trace w ++ [(DeleteIndex i, delete i (backend w))])
                    (stdout w) (stdin w) (clock w) (ticks w)) Hnd)
      as (w' & Hrun & Ht & Hb & Hi & Hc & Hk).
    { intros j Hj. simpl. rewrite lookup_delete_ne.
      - apply Hin. by right.
      - intros ->. done. }
    exists w'. split; [|split; [|split]].
    + simpl for_each. by rewrite (bind_ok _ _ _ _ _ Hstep).
    + rewrite Ht. simpl. by rewrite <- app_assoc.
    + rewrite Hb. done.
    + done.
Qed.

Lemma be_list_spec pattern (b : Backend) i :
  i ∈ be_list pattern b <-> is_Some (b !! i) /\ glob_match pattern i = true.
Proof.
  unfold be_list. rewrite list_elem_of_filter, elem_of_elements, elem_of_dom.
  tauto.
Qed.

Lemma be_list_NoDup pattern (b : Backend) : NoDup (be_list pattern b).
Proof. unfold be_list. apply NoDup_filter, NoDup_elements. Qed.

Lemma request_mk c ignore op b t o i k n b' :
  op b = inr b' ->
  request c ignore op (mkWorld b t o i k n)
  = (inr tt, mkWorld b' (t ++ [(c, b')]) o i k n).
Proof. intros H. unfold request. simpl. by rewrite H. Qed.

Lemma stdout_write_mk line b t o i k n :
  stdout_write line (mkWorld b t o i k n)
  = (inr tt, mkWorld b t (o ++ [line]) i k n).
Proof. reflexivity. Qed.

Lemma next_index_name_mk name b t o i k n :
  _next_index_name name (mkWorld b t o i k n)
  = (inr (name +:+ "-" +:+ strftime (k n)), mkWorld b t o i k (S n)).
Proof. reflexivity. Qed.

Lemma get_indices_matching_mk pattern b t o i k n :
  get_indices_matching pattern (mkWorld b t o i k n)
  = (inr (be_list pattern b),
     mkWorld b (t ++ [(GetIndices pattern, b)]) o i k n).
Proof. reflexivity. Qed.

(** One document's reindex always runs to its end; the requests it sends
    and the states they leave are these. *)
Lemma reindex_document_run doc w :
  let alias := doc_index doc in
  let n := alias +:+ "-" +:+ strftime (clock w (ticks w)) in
  let pat := generation_pattern alias in
  let acts := [Remove alias pat; Add alias n] in
  exists b1 b2 b3 w',
    be_init n (backend w) = inr b1
    /\ be_put_alias n alias b1 = inr b2
    /\ be_update_aliases acts b2 = inr b3
    /\ reindex_document doc w = (inr tt, w')
    /\ trace w'
       = trace w
         ++ [(InitIndex n, b1); (BulkWrite n (doc_records doc), b1);
             (RefreshIndex n, b1); (PutAlias n alias, b2);
             (UpdateAliases acts, b3); (GetIndices pat, b3)]
         ++ delete_trace b3 (filter (fun i => i ≠ n) (be_list pat b3))
    /\ backend w'
       = foldl (fun b i => delete i b) b3
               (filter (fun i => i ≠ n) (be_list pat b3)).
Proof.
  destruct w as [b0 t0 o0 i0 k0 n0].
  cbn [backend trace stdout stdin clock ticks]. cbv zeta.
  unfold reindex_document. cbv zeta.
  rewrite (bind_ok _ _ _ _ _ (next_index_name_mk _ _ _ _ _ _ _)). cbv beta.
  set (alias := doc_index doc).
  set (n := alias +:+ "-" +:+ strftime (k0 n0)).
  set (pat := generation_pattern alias).
  set (acts := [Remove alias pat; Add alias n]).
  set (b1 := match b0 !! n with Some _ => b0 | None => <[n := ∅]> b0 end).
  assert (Hinit : be_init n b0 = inr b1)
    by (unfold be_init, b1; by destruct (b0 !! n)).
  assert (Hn1 : is_Some (b1 !! n)).
  { unfold b1. destruct (b0 !! n) eqn:E; [by rewrite E|].
    by rewrite lookup_insert_eq. }
  destruct Hn1 as [als1 Hals1].
  set (b2 := <[n := als1 ∪ {[alias]}]> b1).
  assert (Hput : be_put_alias n alias b1 = inr b2)
    by (unfold be_put_alias; by rewrite Hals1).
  set (br := be_remove_alias alias pat b2).
  assert (Hnr : exists alsr, br !! n = Some alsr).
  { unfold br. rewrite lookup_remove_alias. unfold b2.
    rewrite lookup_insert_eq. by eexists. }
  destruct Hnr as [alsr Halsr].
  set (b3 := <[n := alsr ∪ {[alias]}]> br).
  assert (Hupd : be_update_aliases acts b2 = inr b3).
  { unfold acts. cbn [be_update_aliases]. fold br.
    unfold be_put_alias. by rewrite Halsr. }
  assert (Hbulk : be_bulk n b1 = inr b1).
  { unfold be_bulk. rewrite decide_True; [done|].
    left. apply elem_of_dom. by eexists. }
  assert (Hrefresh : be_refresh n b1 = inr b1)
    by (unfold be_refresh; by rewrite Hals1).
  rewrite (bind_ok _ _ _ _ _ (request_mk _ _ _ _ _ _ _ _ _ _ Hinit)). cbv beta.
  rewrite (bind_ok _ _ _ _ _ (stdout_write_mk _ _ _ _ _ _ _)). cbv beta.
  rewrite (bind_ok _ _ _ _ _ (stdout_write_mk _ _ _ _ _ _ _)). cbv beta.
  rewrite (bind_ok _ _ _ _ _ (request_mk _ _ _ _ _ _ _ _ _ _ Hbulk)). cbv beta.
  rewrite (bind_ok _ _ _ _ _ (request_mk _ _ _ _ _ _ _ _ _ _ Hrefresh)). cbv beta.
  rewrite (bind_ok _ _ _ _ _ (stdout_write_mk _ _ _ _ _ _ _)). cbv beta.
  rewrite (bind_ok _ _ _ _ _ (request_mk _ _ _ _ _ _ _ _ _ _ Hput)). cbv beta.
  rewrite (bind_ok _ _ _ _ _ (request_mk _ _ _ _ _ _ _ _ _ _ Hupd)). cbv beta.
  rewrite (bind_ok _ _ _ _ _ (get_indices_matching_mk _ _ _ _ _ _ _)). cbv beta.
  match goal with
  | |- context [for_each ?l reclaim_body ?w6] =>
      destruct (reclaim_loop_run l w6) as (w' & Hrun & Ht & Hb & _)
  end.
  { apply NoDup_filter, be_list_NoDup. }
  { intros i [_ Hi]%list_elem_of_filter.
    by apply be_list_spec in Hi as [Hi _]. }
  exists b1, b2, b3, w'.
  split; [exact Hinit|]. split; [exact Hput|]. split; [exact Hupd|].
  split; [exact Hrun|]. split.
  - rewrite Ht. cbn [trace backend]. by rewrite <- !app_assoc.
  - rewrite Hb. reflexivity.
Qed.
(** The three states of the swap, index by index. *)
Lemma swap_lookup alias pat n (b0 b1 b2 b3 : Backend) :
  be_init n b0 = inr b1 ->
  be_put_alias n alias b1 = inr b2 ->
  be_update_aliases [Remove alias pat; Add alias n] b2 = inr b3 ->
  (forall i, i ≠ n ->
     b1 !! i = b0 !! i /\ b2 !! i = b0 !! i
     /\ b3 !! i = (fun als => if glob_match pat i then als ∖ {[alias]} else als)
                    <$> b0 !! i)
  /\ b1 !! n = Some (default ∅ (b0 !! n))
  /\ b2 !! n = Some (default ∅ (b0 !! n) ∪ {[alias]})
  /\ exists als3, b3 !! n = Some als3 /\ alias ∈ als3.
Proof.
  intros Hinit Hput Hupd.
  assert (H1 : b1 !! n = Some (default ∅ (b0 !! n))
               /\ forall i, i ≠ n -> b1 !! i = b0 !! i).
  { unfold be_init in Hinit. destruct (b0 !! n) eqn:E; injection Hinit as <-.
    - by rewrite E.
    - rewrite lookup_insert_eq. split; [done|].
      intros i Hi. by rewrite lookup_insert_ne. }
  destruct H1 as [H1n H1o].
  unfold be_put_alias in Hput. rewrite H1n in Hput. injection Hput as <-.
  simpl in Hupd. unfold be_put_alias in Hupd.
  rewrite lookup_remove_alias, lookup_insert_eq in Hupd. simpl in Hupd.
  injection Hupd as <-.
  split; [|split; [done|split]].
  - intros i Hi. split; [by apply H1o|].
    rewrite !lookup_insert_ne by done.
    rewrite lookup_remove_alias, lookup_insert_ne by done.
    rewrite H1o by done. done.
  - by rewrite lookup_insert_eq.
  - rewrite lookup_insert_eq. eexists. split; [done|]. set_solver.
Qed.

Lemma swap_targets alias pat n (b0 b1 b2 b3 : Backend) :
  be_init n b0 = inr b1 ->
  be_put_alias n alias b1 = inr b2 ->
  be_update_aliases [Remove alias pat; Add alias n] b2 = inr b3 ->
  alias_targets alias b1 = alias_targets alias b0
  /\ alias_targets alias b2 = alias_targets alias b0 ∪ {[n]}
  /\ alias_targets alias b3
     = {[n]} ∪ filter (fun i => glob_match pat i = false)
                      (alias_targets alias b0).
Proof.
  intros Hinit Hput Hupd.
  destruct (swap_lookup _ _ _ _ _ _ _ Hinit Hput Hupd)
    as (Hother & H1n & H2n & als3 & H3n & Hin3).
  split; [|split]; apply set_eq; intros i;
    rewrite ?elem_of_union, ?elem_of_filter, ?elem_of_singleton,
            !elem_of_alias_targets.
  - destruct (decide (i = n)) as [->|Hne].
    + rewrite H1n. destruct (b0 !! n) as [als|]; simpl; [done|].
      split; intros (als & [= <-] & Hin); set_solver.
    + destruct (Hother i Hne) as (-> & _). done.
  - destruct (decide (i = n)) as [->|Hne].
    + rewrite H2n. split; [auto|]. intros _. eexists. split; [done|].
      apply elem_of_union. right. by apply elem_of_singleton.
    + destruct (Hother i Hne) as (_ & -> & _). tauto.
  - destruct (decide (i = n)) as [->|Hne].
    + split; [auto|]. intros _. eauto.
    + destruct (Hother i Hne) as (_ & _ & ->). split.
      * intros (als & Hl & Hin). right.
        destruct (b0 !! i) as [als0|] eqn:E; [|discriminate].
        simpl in Hl. injection Hl as <-.
        destruct (glob_match pat i); [|by eauto].
        apply elem_of_difference in Hin as [_ Hn]. exfalso. apply Hn.
        by apply elem_of_singleton.
      * intros [?|[Hg (als & -> & Hin)]]; [done|]. simpl. rewrite Hg. eauto.
Qed.

Lemma swap_dom alias pat n (b0 b1 b2 b3 : Backend) i :
  be_init n b0 = inr b1 ->
  be_put_alias n alias b1 = inr b2 ->
  be_update_aliases [Remove alias pat; Add alias n] b2 = inr b3 ->
  is_Some (b3 !! i) <-> i = n \/ is_Some (b0 !! i).
Proof.
  intros Hinit Hput Hupd.
  destruct (swap_lookup _ _ _ _ _ _ _ Hinit Hput Hupd)
    as (Hother & _ & _ & als3 & H3n & _).
  destruct (decide (i = n)) as [->|Hne].
  - rewrite H3n. split; [auto | by eauto].
  - destruct (Hother i Hne) as (_ & _ & ->). rewrite fmap_is_Some. tauto.
Qed.

Lemma alias_targets_delete alias (b : Backend) i :
  i ∉ alias_targets alias b ->
  alias_targets alias (delete i b) = alias_targets alias b.
Proof.
  intros Hi. apply set_eq. intros j. rewrite !elem_of_alias_targets.
  destruct (decide (j = i)) as [->|Hne].
  - rewrite lookup_delete_eq. split.
    + intros (als & ? & _). discriminate.
    + intros H. by apply elem_of_alias_targets in H.
  - by rewrite lookup_delete_ne.
Qed.

(** Deleting indices the alias is not on leaves its targets alone, at
    every step. *)
Lemma delete_trace_targets alias (b : Backend) l :
  (forall i, i ∈ l -> i ∉ alias_targets alias b) ->
  (forall c b', (c, b') ∈ delete_trace b l ->
     (exists i, i ∈ l /\ c = DeleteIndex i)
     /\ alias_targets alias b' = alias_targets alias b)
  /\ alias_targets alias (foldl (fun b i => delete i b) b l)
     = alias_targets alias b.
Proof.
  revert b. induction l as [|i rest IH]; intros b Hl.
  - split; [|done]. intros c b' H. by apply elem_of_nil in H.
  - assert (Hi : alias_targets alias (delete i b) = alias_targets alias b)
      by (apply alias_targets_delete, Hl; left).
    destruct (IH (delete i b)) as [IH1 IH2].
    { intros j Hj. rewrite Hi. apply Hl. by right. }
    split.
    + intros c b' [[= -> ->]|H]%elem_of_cons.
      * split; [|done]. exists i. split; [left | done].
      * destruct (IH1 c b' H) as [(j & Hj & ->) Ht].
        split; [|by rewrite Ht]. exists j. split; [by right | done].
    + simpl. by rewrite IH2.
Qed.

Lemma delete_trace_calls (b : Backend) l :
  map fst (delete_trace b l) = map DeleteIndex l.
Proof.
  revert b. induction l as [|i rest IH]; intros b; simpl; [done|].
  by rewrite IH.
Qed.

(** What one document's reindex does to the alias, request by request. *)
Lemma reindex_document_spec doc w :
  let alias := doc_index doc in
  let n := alias +:+ "-" +:+ strftime (clock w (ticks w)) in
  let pat := generation_pattern alias in
  let acts := [Remove alias pat; Add alias n] in
  exists b1 b2 b3 w',
    reindex_document doc w = (inr tt, w')
    /\ be_update_aliases acts b2 = inr b3
    /\ trace w'
       = trace w
         ++ [(InitIndex n, b1); (BulkWrite n (doc_records doc), b1);
             (RefreshIndex n, b1); (PutAlias n alias, b2);
             (UpdateAliases acts, b3); (GetIndices pat, b3)]
         ++ delete_trace b3 (filter (fun i => i ≠ n) (be_list pat b3))
    /\ backend w'
       = foldl (fun b i => delete i b) b3
               (filter (fun i => i ≠ n) (be_list pat b3))
    /\ alias_targets alias b1 = alias_targets alias (backend w)
    /\ alias_targets alias b2 = alias_targets alias (backend w) ∪ {[n]}
    /\ alias_targets alias b3
       = {[n]} ∪ filter (fun i => glob_match pat i = false)
                        (alias_targets alias (backend w))
    /\ (forall i, i ∈ filter (fun i => i ≠ n) (be_list pat b3) <->
                   is_Some (backend w !! i) /\ glob_match pat i = true /\ i ≠ n)
    /\ (forall i, is_Some (b3 !! i) <-> i = n \/ is_Some (backend w !! i))
    /\ (forall i, i ∈ filter (fun i => i ≠ n) (be_list pat b3) ->
                   i ∉ alias_targets alias b3).
Proof.
  intros alias n pat acts.
  destruct (reindex_document_run doc w)
    as (b1 & b2 & b3 & w' & Hinit & Hput & Hupd & Hrun & Ht & Hb).
  fold alias n pat acts in Hinit, Hput, Hupd, Hrun, Ht, Hb.
  destruct (swap_targets _ _ _ _ _ _ _ Hinit Hput Hupd) as (T1 & T2 & T3).
  assert (Hold : forall i, i ∈ filter (fun i => i ≠ n) (be_list pat b3) <->
                   is_Some (backend w !! i) /\ glob_match pat i = true /\ i ≠ n).
  { intros i. rewrite list_elem_of_filter, be_list_spec.
    rewrite (swap_dom _ _ _ _ _ _ _ i Hinit Hput Hupd). tauto. }
  exists b1, b2, b3, w'. repeat (split; [assumption|]).
  split; [intros i; apply (swap_dom _ _ _ _ _ _ _ i Hinit Hput Hupd)|].
  intros i (_ & Hg & Hne)%Hold. rewrite T3.
  rewrite elem_of_union, elem_of_singleton, elem_of_filter.
  intros [?|[Hg' _]]; congruence.
Qed.

(** In this model of the backend no request of a reindex is refused, so
    [_reindex] runs through all its documents. *)
Lemma reindex_completes reg models options w :
  exists w', _reindex reg models options w = (inr tt, w').
Proof.
  unfold _reindex. revert w.
  induction (get_documents reg models) as [|doc rest IH]; intros w.
  - by exists w.
  - destruct (reindex_document_spec doc w) as (_ & _ & _ & w1 & Hrun & _).
    destruct (IH w1) as (w2 & Hrest). exists w2.
    cbn [for_each]. by rewrite (bind_ok _ _ _ _ _ Hrun).
Qed.

(** C1, as the code does it: the alias is first put on the new generation
    by a request of its own, and from then until the next request it is
    on its earlier indices and on the new generation together.  Then one
    [update_aliases] request carries both the removal of the alias from
    every index matching the generation pattern and its addition to the
    new generation.  After that request, and through the reclaiming
    deletes, the alias is on the new generation and on none of the other
    indices that match the pattern.  From the [put_alias] on the alias is
    never on zero indices. *)
Theorem alias_swap_is_put_then_one_update doc w :
  let alias := doc_index doc in
  let n := alias +:+ "-" +:+ strftime (clock w (ticks w)) in
  let pat := generation_pattern alias in
  let acts := [Remove alias pat; Add alias n] in
  exists b1 b2 b3 w' reclaimed,
    reindex_document doc w = (inr tt, w')
    /\ trace w'
       = trace w
         ++ [(InitIndex n, b1); (BulkWrite n (doc_records doc), b1);
             (RefreshIndex n, b1); (PutAlias n alias, b2);
             (UpdateAliases acts, b3); (GetIndices pat, b3)]
         ++ reclaimed
    /\ be_update_aliases acts b2 = inr b3
    /\ alias_targets alias b1 = alias_targets alias (backend w)
    /\ alias_targets alias b2 = alias_targets alias (backend w) ∪ {[n]}
    /\ alias_targets alias b3
       = {[n]} ∪ filter (fun i => glob_match pat i = false)
                        (alias_targets alias (backend w))
    /\ Forall (fun cb => (exists i, cb.1 = DeleteIndex i)
                         /\ alias_targets alias cb.2 = alias_targets alias b3)
              reclaimed
    /\ alias_targets alias (backend w') = alias_targets alias b3.
Proof.
  intros alias n pat acts.
  destruct (reindex_document_spec doc w)
    as (b1 & b2 & b3 & w' & Hrun & Hupd & Ht & Hb & T1 & T2 & T3 & _ & _ & Hoff).
  fold alias n pat acts in Hrun, Hupd, Ht, Hb, T1, T2, T3, Hoff.
  destruct (delete_trace_targets alias b3 _ Hoff) as [Hsteps Hend].
  exists b1, b2, b3, w', (delete_trace b3 (filter (fun i => i ≠ n) (be_list pat b3))).
  repeat (split; [assumption|]). split.
  - apply Forall_forall. intros [c b'] Hin.
    destruct (Hsteps c b' Hin) as [(i & _ & ->) Hsame].
    split; [by exists i | exact Hsame].
  - by rewrite Hb.
Qed.

(** C1, as stated, fails: with an earlier generation in place the alias
    is on two indices once the [put_alias] request is served. *)
Lemma alias_on_two_indices_during_swap :
  (reindex_document articles_doc generation_world).1 = inr tt
  /\ alias_targets "articles" (backend generation_world)
     = {[ "articles-2020.01.01.00.00.00" ]}
  /\ alias_history "articles" (reindex_document articles_doc generation_world).2
     = [ (InitIndex "articles-2020.01.02.00.00.00",
          {[ "articles-2020.01.01.00.00.00" ]});
         (BulkWrite "articles-2020.01.02.00.00.00" 3,
          {[ "articles-2020.01.01.00.00.00" ]});
         (RefreshIndex "articles-2020.01.02.00.00.00",
          {[ "articles-2020.01.01.00.00.00" ]});
         (PutAlias "articles-2020.01.02.00.00.00" "articles",
          {[ "articles-2020.01.01.00.00.00"; "articles-2020.01.02.00.00.00" ]});
         (UpdateAliases [Remove "articles" "articles-*";
                         Add "articles" "articles-2020.01.02.00.00.00"],
          {[ "articles-2020.01.02.00.00.00" ]});
         (GetIndices "articles-*", {[ "articles-2020.01.02.00.00.00" ]});
         (DeleteIndex "articles-2020.01.01.00.00.00",
          {[ "articles-2020.01.02.00.00.00" ]}) ]
  /\ ~ Forall (fun cb => size cb.2 = 1)
        (alias_history "articles"
           (reindex_document articles_doc generation_world).2).
Proof. compute_done. Qed.

(** C2, as the code does it: when the indices the alias is on before the
    run (if any) are all named like generations of it, the run ends with
    the alias on exactly one index, the generation just created.  The
    only deletes of the run come after a listing of the backend as the
    swap left it; they are the listed indices other than the new
    generation, that is every earlier index matching the generation
    pattern, and afterwards the new generation is the only index of the
    backend that matches it. *)
Theorem reindex_moves_alias_to_new_generation doc w :
  let alias := doc_index doc in
  let n := alias +:+ "-" +:+ strftime (clock w (ticks w)) in
  let pat := generation_pattern alias in
  let acts := [Remove alias pat; Add alias n] in
  (forall i, i ∈ alias_targets alias (backend w) -> glob_match pat i = true) ->
  exists b1 b2 b3 w',
    reindex_document doc w = (inr tt, w')
    /\ alias_targets alias (backend w') = {[n]}
    /\ size (alias_targets alias (backend w')) = 1
    /\ trace w'
       = trace w
         ++ [(InitIndex n, b1); (BulkWrite n (doc_records doc), b1);
             (RefreshIndex n, b1); (PutAlias n alias, b2);
             (UpdateAliases acts, b3); (GetIndices pat, b3)]
         ++ delete_trace b3 (filter (fun i => i ≠ n) (be_list pat b3))
    /\ map fst (delete_trace b3 (filter (fun i => i ≠ n) (be_list pat b3)))
       = map DeleteIndex (filter (fun i => i ≠ n) (be_list pat b3))
    /\ (forall i, i ∈ filter (fun i => i ≠ n) (be_list pat b3) <->
                  is_Some (backend w !! i) /\ glob_match pat i = true /\ i ≠ n)
    /\ (forall i, is_Some (backend w' !! i) <->
                  i = n \/ (is_Some (backend w !! i) /\ glob_match pat i = false)).
Proof.
  intros alias n pat acts Hgen.
  destruct (reindex_document_spec doc w)
    as (b1 & b2 & b3 & w' & Hrun & Hupd & Ht & Hb & T1 & T2 & T3 & Hold & Hdom & Hoff).
  fold alias n pat acts in Hrun, Hupd, Ht, Hb, T1, T2, T3, Hold, Hdom, Hoff.
  destruct (delete_trace_targets alias b3 _ Hoff) as [_ Hend].
  assert (Htargets : alias_targets alias (backend w') = {[n]}).
  { rewrite Hb, Hend, T3. apply set_eq. intros i.
    rewrite elem_of_union, elem_of_singleton, elem_of_filter. split; [|auto].
    intros [?|[Hg Hi]]; [done|]. rewrite (Hgen i Hi) in Hg. discriminate. }
  exists b1, b2, b3, w'.
  split; [exact Hrun|]. split; [exact Htargets|].
  split; [by rewrite Htargets, size_singleton|].
  split; [exact Ht|]. split; [apply delete_trace_calls|].
  split; [exact Hold|].
  intros i. rewrite Hb, foldl_delete_lookup.
  destruct (decide (i ∈ filter (fun i => i ≠ n) (be_list pat b3))) as [Hin|Hout].
  - apply Hold in Hin as (Hs & Hg & Hne). split.
    + intros []%is_Some_None.
    + intros [?|[_ Hg']]; congruence.
  - rewrite Hdom. split.
    + intros [->|Hs]; [by left|].
      destruct (decide (i = n)) as [->|Hne]; [by left|]. right.
      split; [done|]. destruct (glob_match pat i) eqn:Hg; [|done].
      exfalso. apply Hout. by apply Hold.
    + intros [->|[Hs _]]; auto.
Qed.

Lemma reindex_moves_alias_to_new_generation_witness :
  exists w',
    reindex_document articles_doc generation_world = (inr tt, w')
    /\ alias_targets "articles" (backend w')
       = {[ "articles-2020.01.02.00.00.00" ]}
    /\ size (alias_targets "articles" (backend w')) = 1.
Proof.
  assert (Hgen : set_Forall
            (fun i => glob_match (generation_pattern "articles") i = true)
            (alias_targets "articles" (backend generation_world)))
    by compute_done.
  destruct (reindex_moves_alias_to_new_generation articles_doc generation_world
              Hgen)
    as (b1 & b2 & b3 & w' & Hrun & Htargets & Hsize & _).
  exists w'. split; [exact Hrun|]. split; [exact Htargets | exact Hsize].
Defined.

(** C2, as stated, fails: an alias that is on one index not named like a
    generation is on two indices after a run that completes; and a run
    completes as well when the alias was on no index before it. *)
Lemma alias_on_two_indices_after_reindex :
  (reindex_document articles_doc legacy_world).1 = inr tt
  /\ alias_targets "articles" (backend legacy_world) = {[ "articles_v1" ]}
  /\ size (alias_targets "articles" (backend legacy_world)) = 1
  /\ alias_targets "articles"
       (backend (reindex_document articles_doc legacy_world).2)
     = {[ "articles_v1"; "articles-2020.01.02.00.00.00" ]}
  /\ size (alias_targets "articles"
             (backend (reindex_document articles_doc legacy_world).2)) = 2
  /\ (reindex_document articles_doc (demo_world ∅ [])).1 = inr tt
  /\ size (alias_targets "articles" (backend (demo_world ∅ []))) = 0.
Proof. compute_done. Qed.

(** * Further properties of the command *)

(** ** What a filter resolves to *)

Lemma ascii_lower_idempotent c : ascii_lower (ascii_lower c) = ascii_lower c.
Proof. destruct c as [[] [] [] [] [] [] [] []]; reflexivity. Qed.

Lemma lower_idempotent s : lower (lower s) = lower s.
Proof.
  induction s as [|c s IH]; [done|].
  simpl. by rewrite ascii_lower_idempotent, IH.
Qed.

Lemma model_matches_spec_matches arg m :
  model_matches (lower arg) m = true -> spec_matches arg m = true.
Proof.
  intros [H|H]%model_matches_spec; unfold spec_matches.
  - rewrite H, lower_idempotent, String.eqb_refl. done.
  - rewrite H, String.eqb_refl. apply orb_true_r.
Qed.

Lemma spec_matches_lower_label arg m :
  lower (app_label m) = app_label m ->
  spec_matches arg m = model_matches (lower arg) m.
Proof.
  intros Hlow. unfold spec_matches, model_matches. rewrite Hlow at 1.
  by destruct (String.eqb (app_label m) (lower arg)).
Qed.

Lemma unmatched_in_spec_fails reg args :
  (exists arg, arg ∈ filter_elements args /\
     forall m, m ∈ get_models reg -> spec_matches arg m = false) ->
  exists e, _get_models reg args = inl e.
Proof.
  intros (arg & Harg & Hno). apply get_models_fails.
  exists arg. split; [done|]. intros m Hm.
  destruct (model_matches (lower arg) m) eqn:E; [|done].
  apply model_matches_spec_matches in E. rewrite (Hno m Hm) in E. discriminate.
Qed.

(** C3, on the code: for the application [Shop] the filter [Shop] names a
    registered binding, yet the resolution fails: the failure is not only
    for elements that match no binding.  What holds: an element that
    matches no binding, up to case, makes the resolution fail; when the
    registered application labels are in lower case the resolution fails
    exactly for such elements; and a failed resolution returns no models
    and leaves [handle] with the world it started from. *)
Theorem get_models_fails_on_matching_filter :
  _get_models [mkDocument item "items" 2] (Some ["Shop"])
  = inl (CommandError "No model or app named shop")
  /\ item ∈ get_models [mkDocument item "items" 2]
  /\ spec_matches "Shop" item = true
  /\ (forall reg args,
        (exists arg, arg ∈ filter_elements args /\
           forall m, m ∈ get_models reg -> spec_matches arg m = false) ->
        exists e, _get_models reg args = inl e)
  /\ (forall reg args,
        (forall m, m ∈ get_models reg -> lower (app_label m) = app_label m) ->
        ((exists e, _get_models reg args = inl e) <->
         (exists arg, arg ∈ filter_elements args /\
            forall m, m ∈ get_models reg -> spec_matches arg m = false)))
  /\ (forall reg options w e,
        no_action options = false ->
        _get_models reg (opt_models options) = inl e ->
        handle reg options w = (inl e, w)).
Proof.
  split; [compute_done|]. split; [compute_done|]. split; [compute_done|].
  split; [exact unmatched_in_spec_fails|]. split.
  - intros reg args Hlow. rewrite get_models_fails.
    split; intros (arg & Harg & Hno); exists arg; (split; [done|]);
      intros m Hm.
    + rewrite spec_matches_lower_label by auto. auto.
    + rewrite <- spec_matches_lower_label by auto. auto.
  - intros reg options w e Hact He. unfold handle. by rewrite Hact, He.
Qed.

Lemma resolve_args_result reg args models result :
  resolve_args reg args models = inr result ->
  forall m, m ∈ result <->
    m ∈ models
    \/ (m ∈ get_models reg
        /\ exists arg, arg ∈ args /\ model_matches (lower arg) m = true).
Proof.
  revert models. induction args as [|arg rest IH]; intros models.
  - intros [= <-] m. split; [auto|].
    intros [?|(_ & a & Ha & _)]; [done | by apply elem_of_nil in Ha].
  - cbn [resolve_args]. rewrite scan_models_filter. cbv zeta. simpl negb.
    destruct (existsb _ _); simpl; [|done].
    intros Hres m. rewrite (IH _ Hres m), elem_of_app, list_elem_of_filter.
    split.
    + intros [[?|[Hm Hin]]|(Hin & a & Ha & Hm)]; [by left|..].
      * right. split; [done|]. exists arg. split; [left | done].
      * right. split; [done|]. exists a. split; [by right | done].
    + intros [?|(Hin & a & [->|Ha]%elem_of_cons & Hm)]; [by left; left|..].
      * left. right. by split.
      * right. split; [done|]. by exists a.
Qed.

Lemma get_models_members reg args models :
  filter_elements args <> [] ->
  _get_models reg args = inr models ->
  forall m, m ∈ models <->
    m ∈ get_models reg
    /\ exists arg, arg ∈ filter_elements args
                   /\ model_matches (lower arg) m = true.
Proof.
  intros Hne Hres m.
  destruct args as [[|arg rest]|]; try done.
  unfold _get_models in Hres. unfold filter_elements, default.
  destruct (resolve_args reg (arg :: rest) []) as [e|l] eqn:E; [discriminate|].
  injection Hres as <-.
  rewrite elem_of_list_to_set, (resolve_args_result _ _ _ _ E m).
  split; [intros [Hm|?]; [by apply elem_of_nil in Hm | done] | by right].
Qed.

(** X1: a non-empty filter list that resolves yields exactly the
    registered models that at least one element matches. *)
Theorem get_models_result reg args models :
  filter_elements args <> [] ->
  _get_models reg args = inr models ->
  forall m, m ∈ models <->
    m ∈ get_models reg
    /\ exists arg, arg ∈ filter_elements args
                   /\ model_matches (lower arg) m = true.
Proof. apply get_models_members. Qed.

Lemma get_models_result_witness :
  post ∈ ({[ post; comment ]} : gset Model) <->
    post ∈ get_models demo_registry
    /\ exists arg, arg ∈ filter_elements (Some ["BLOG"])
                   /\ model_matches (lower arg) post = true.
Proof.
  apply (get_models_result demo_registry (Some ["BLOG"]) {[ post; comment ]}).
  - discriminate.
  - compute_done.
Defined.

Lemma resolve_args_lower reg args models :
  resolve_args reg (map lower args) models = resolve_args reg args models.
Proof.
  revert models. induction args as [|arg rest IH]; intros models; [done|].
  cbn [map resolve_args]. rewrite lower_idempotent. cbv zeta.
  destruct (scan_models (lower arg) (get_models reg) models false) as [l found].
  destruct (negb found); [done | apply IH].
Qed.

(** X2: the case of the filter elements never matters: a filter list and
    its lowering resolve alike, to the same models or to the same error. *)
Theorem get_models_ignores_filter_case reg args :
  _get_models reg (map lower <$> args) = _get_models reg args.
Proof.
  destruct args as [[|arg rest]|]; try reflexivity.
  unfold _get_models. cbn [fmap option_fmap option_map map].
  change (lower arg :: map lower rest) with (map lower (arg :: rest)).
  by rewrite resolve_args_lower.
Qed.

(** X3: neither the order of the filter elements nor their repetition
    matters to the models a filter list resolves to. *)
Theorem get_models_ignores_filter_order reg args1 args2 models :
  (forall a, a ∈ args1 <-> a ∈ args2) ->
  _get_models reg (Some args1) = inr models ->
  _get_models reg (Some args2) = inr models.
Proof.
  intros Hsame Hres.
  destruct args1 as [|a1 rest1], args2 as [|a2 rest2]; try done.
  - exfalso. apply (not_elem_of_nil a2), Hsame. left.
  - exfalso. apply (not_elem_of_nil a1), Hsame. left.
  - destruct (_get_models reg (Some (a2 :: rest2))) as [e|models2] eqn:E2.
    + exfalso.
      assert (Hfail : exists e, _get_models reg (Some (a1 :: rest1)) = inl e).
      { apply get_models_fails.
        destruct (proj1 (get_models_fails reg (Some (a2 :: rest2))))
          as (a & Ha & Hno); [by eexists|].
        exists a. split; [by apply Hsame | done]. }
      destruct Hfail as [e' He']. congruence.
    + f_equal. apply set_eq. intros m.
      rewrite (get_models_members reg (Some (a2 :: rest2)) models2) by done.
      rewrite (get_models_members reg (Some (a1 :: rest1)) models) by done.
      unfold filter_elements, default.
      split; intros (Hm & a & Ha & Hmatch); (split; [done|]);
        exists a; (split; [by apply Hsame | done]).
Qed.

Lemma get_models_ignores_filter_order_witness :
  _get_models demo_registry (Some ["blog.post"; "shop.item"; "blog.post"])
  = inr {[ post; item ]}.
Proof.
  apply (get_models_ignores_filter_order demo_registry
           ["shop.item"; "blog.post"]).
  - intros a. rewrite !elem_of_cons. pose proof (not_elem_of_nil a). tauto.
  - compute_done.
Defined.

(** X4: a single filter resolves, to a set that holds the model, as soon
    as its lowering is the model's [app_label] as registered or the
    lowering of its [app_label.model_name]; so the qualified form is
    insensitive to case on both sides. *)
Theorem filter_naming_a_model_resolves reg m f :
  m ∈ get_models reg ->
  lower f = app_label m
  \/ lower f = lower (app_label m) +:+ "." +:+ lower (model_name m) ->
  exists models,
    _get_models reg (Some [f]) = inr models
    /\ m ∈ models
    /\ forall m', m' ∈ models -> model_matches (lower f) m' = true.
Proof.
  intros Hreg Hname.
  assert (Hmatch : model_matches (lower f) m = true)
    by (apply model_matches_spec; destruct Hname as [->| ->]; auto).
  destruct (_get_models reg (Some [f])) as [e|models] eqn:E.
  - exfalso.
    destruct (proj1 (get_models_fails reg (Some [f]))) as (a & Ha & Hno);
      [by eexists|].
    apply list_elem_of_singleton in Ha as ->.
    rewrite (Hno m Hreg) in Hmatch. discriminate.
  - exists models. split; [done|].
    pose proof (get_models_members reg (Some [f]) models) as Hchar.
    split.
    + apply Hchar; [done..|]. split; [done|].
      exists f. split; [apply list_elem_of_singleton | done]. done.
    + intros m' Hm'. apply Hchar in Hm' as (_ & a & Ha & Hm'); [|done..].
      by apply list_elem_of_singleton in Ha as ->.
Qed.

Lemma filter_naming_a_model_resolves_witness :
  exists models,
    _get_models demo_registry (Some ["SHOP.Item"]) = inr models
    /\ item ∈ models
    /\ forall m', m' ∈ models -> model_matches (lower "SHOP.Item") m' = true.
Proof.
  apply (filter_naming_a_model_resolves demo_registry item "SHOP.Item").
  - compute_done.
  - right. reflexivity.
Defined.

(** ** The dispatch of [handle] *)

Lemma get_models_error_is_command_error reg args e :
  _get_models reg args = inl e -> exists msg, e = CommandError msg.
Proof.
  destruct args as [[|arg rest]|]; unfold _get_models; try discriminate.
  destruct (resolve_args reg (arg :: rest) []) as [e'|l] eqn:E; [|discriminate].
  intros [= <-]. apply resolve_args_error in E as (a & _ & ->). by eexists.
Qed.

(** X5: unless the action is one of the five the command knows, [handle]
    raises a [CommandError] and has done nothing: no output, no input
    read, no request to the backend.  This covers a missing or empty
    action and an unknown one. *)
Theorem handle_rejects_unknown_action reg options w :
  opt_action options ∉
    [Some "create"; Some "populate"; Some "delete"; Some "rebuild";
     Some "reindex"] ->
  exists msg, handle reg options w = (inl (CommandError msg), w).
Proof.
  intros Hnot. unfold handle.
  destruct (no_action options) eqn:Hno; [by eexists|].
  destruct (_get_models reg (opt_models options)) as [e|models] eqn:E.
  - destruct (get_models_error_is_command_error _ _ _ E) as [msg ->].
    by eexists.
  - unfold no_action in Hno.
    destruct (opt_action options) as [action|]; [|discriminate].
    cbn [default].
    assert (Hne : forall known,
               Some known ∈ [Some "create"; Some "populate"; Some "delete";
                             Some "rebuild"; Some "reindex"] ->
               String.eqb action known = false).
    { intros known Hk. apply String.eqb_neq. intros ->. done. }
    rewrite !Hne by (rewrite !elem_of_cons; auto 10).
    by eexists.
Qed.

Lemma handle_rejects_unknown_action_witness :
  exists msg,
    handle demo_registry (mkOptions (Some "update") None true)
           (demo_world {[ "articles" := ∅ ]} [])
    = (inl (CommandError msg), demo_world {[ "articles" := ∅ ]} []).
Proof.
  apply (handle_rejects_unknown_action demo_registry
           (mkOptions (Some "update") None true)).
  compute_done.
Defined.

Lemma delete_declined reg models options w response rest :
  opt_force options = false ->
  stdin w = response :: rest ->
  lower response <> "y" ->
  exists w',
    _delete reg models options w = (inr false, w')
    /\ backend w' = backend w /\ trace w' = trace w
    /\ stdout w' = stdout w ++ [delete_prompt reg models; "Aborted"].
Proof.
  intros Hforce Hin Hno.
  destruct (delete_cases reg models options w)
    as [[Hf _]|[(_ & Hnil & _)|[(r & rs & _ & Hin' & _ & w' & H1 & H2 & H3 & H4 & _)
                              |(r & rs & _ & Hin' & Hy & _)]]];
    try congruence.
  exists w'. by repeat split.
Qed.

(** X6: a declined confirmation is not an error for the caller: [handle]
    with the delete or the rebuild action then returns normally, having
    only shown the prompt and [Aborted]; the backend is as it was and has
    received no request. *)
Theorem handle_returns_normally_when_declined
    reg options w response rest models :
  opt_action options = Some "delete" \/ opt_action options = Some "rebuild" ->
  opt_force options = false ->
  stdin w = response :: rest ->
  lower response <> "y" ->
  _get_models reg (opt_models options) = inr models ->
  exists w',
    handle reg options w = (inr tt, w')
    /\ backend w' = backend w
    /\ trace w' = trace w
    /\ stdout w' = stdout w ++ [delete_prompt reg models; "Aborted"].
Proof.
  intros Hact Hforce Hin Hno Hres.
  destruct (delete_declined reg models options w response rest Hforce Hin Hno)
    as (w' & Hdel & Hb & Ht & Ho).
  exists w'. split; [|done].
  unfold handle, no_action.
  destruct Hact as [-> | ->]; cbn [default]; rewrite Hres;
    repeat match goal with
    | |- context [String.eqb ?a ?b] =>
        let v := eval vm_compute in (String.eqb a b) in
        change (String.eqb a b) with v
    end; cbv beta iota.
  - by rewrite (bind_ok _ _ _ _ _ Hdel).
  - unfold _rebuild. by rewrite (bind_ok _ _ _ _ _ Hdel).
Qed.

Lemma handle_returns_normally_when_declined_witness :
  exists w',
    handle demo_registry (mkOptions (Some "rebuild") (Some ["blog"]) false)
           (demo_world {[ "articles" := ∅ ]} ["N"])
    = (inr tt, w')
    /\ backend w' = backend (demo_world {[ "articles" := ∅ ]} ["N"])
    /\ trace w' = trace (demo_world {[ "articles" := ∅ ]} ["N"])
    /\ stdout w'
       = stdout (demo_world {[ "articles" := ∅ ]} ["N"])
         ++ [delete_prompt demo_registry {[ post; comment ]}; "Aborted"].
Proof.
  refine (handle_returns_normally_when_declined demo_registry
            (mkOptions (Some "rebuild") (Some ["blog"]) false)
            (demo_world {[ "articles" := ∅ ]} ["N"]) "N" []
            {[ post; comment ]} (or_intror eq_refl) eq_refl eq_refl _ _);
    compute_done.
Defined.

(** ** Delete *)

(** X7: a delete that goes through removes the indices of the bindings
    and nothing else: every other index of the backend is as it was, with
    the aliases it had; one delete request is sent per index, in the
    registry's order. *)
Theorem delete_removes_only_the_bindings_indices reg models options w w1 :
  _delete reg models options w = (inr true, w1) ->
  (forall i, backend w1 !! i
             = if decide (i ∈ get_indices reg models) then None
               else backend w !! i)
  /\ map fst (trace w1)
     = map fst (trace w) ++ map DeleteIndex (get_indices reg models).
Proof.
  intros Hrun.
  destruct (delete_cases reg models options w)
    as [[Hf H]|[(Hf & _ & w0 & H & _)
               |[(r1 & rs & Hf & _ & _ & w0 & H & _)
                |(r1 & rs & Hf & _ & _ & w0 & H & Hb & Ht & _)]]];
    rewrite H in Hrun; try discriminate.
  - destruct (delete_indices_run reg models w) as (w2 & Hd & Hb2 & Ht2 & _).
    rewrite Hd in Hrun. injection Hrun as <-.
    split; [|done]. intros i. by rewrite Hb2, foldl_delete_lookup.
  - destruct (delete_indices_run reg models w0) as (w2 & Hd & Hb2 & Ht2 & _).
    rewrite Hd in Hrun. injection Hrun as <-.
    split; [|by rewrite Ht2, Ht]. intros i.
    by rewrite Hb2, foldl_delete_lookup, Hb.
Qed.

Lemma delete_removes_only_the_bindings_indices_witness :
  backend (_delete demo_registry {[ post ]} (mkOptions (Some "delete") None true)
             (demo_world {[ "articles" := ∅; "other" := {[ "books" ]} ]} [])).2
    !! "other"
  = Some {[ "books" ]}.
Proof.
  assert (H : _delete demo_registry {[ post ]}
                (mkOptions (Some "delete") None true)
                (demo_world {[ "articles" := ∅; "other" := {[ "books" ]} ]} [])
              = (inr true,
                 (_delete demo_registry {[ post ]}
                    (mkOptions (Some "delete") None true)
                    (demo_world {[ "articles" := ∅; "other" := {[ "books" ]} ]}
                       [])).2)).
  { apply injective_projections; [compute_done | reflexivity]. }
  rewrite (proj1 (delete_removes_only_the_bindings_indices _ _ _ _ _ H) "other").
  compute_done.
Defined.

(** X8: without [-f], when the input is at its end, the delete raises
    [EOFError] once the prompt is shown; nothing is deleted and no
    request is sent, and a rebuild stops there with the same error. *)
Theorem delete_at_end_of_input reg models options w :
  opt_force options = false ->
  stdin w = [] ->
  exists w',
    _delete reg models options w = (inl EOFError, w')
    /\ _rebuild reg models options w = (inl EOFError, w')
    /\ backend w' = backend w
    /\ trace w' = trace w
    /\ stdout w' = stdout w ++ [delete_prompt reg models].
Proof.
  intros Hforce Hin.
  assert (Hdel : _delete reg models options w
                 = (inl EOFError,
                    mkWorld (backend w) (trace w)
                            (stdout w ++ [delete_prompt reg models]) []
                            (clock w) (ticks w))).
  { unfold _delete. rewrite Hforce. cbn [negb].
    unfold mbind, M_bind, input. by rewrite Hin. }
  eexists. split; [exact Hdel|]. split; [|done].
  unfold _rebuild, mbind, M_bind. by rewrite Hdel.
Qed.

Lemma delete_at_end_of_input_witness :
  exists w',
    _delete demo_registry {[ post ]} (mkOptions (Some "delete") None false)
            (demo_world {[ "articles" := ∅ ]} [])
    = (inl EOFError, w')
    /\ _rebuild demo_registry {[ post ]} (mkOptions (Some "delete") None false)
                (demo_world {[ "articles" := ∅ ]} [])
       = (inl EOFError, w')
    /\ backend w' = backend (demo_world {[ "articles" := ∅ ]} [])
    /\ trace w' = trace (demo_world {[ "articles" := ∅ ]} [])
    /\ stdout w'
       = stdout (demo_world {[ "articles" := ∅ ]} [])
         ++ [delete_prompt demo_registry {[ post ]}].
Proof.
  exact (delete_at_end_of_input demo_registry {[ post ]}
           (mkOptions (Some "delete") None false)
           (demo_world {[ "articles" := ∅ ]} []) eq_refl eq_refl).
Defined.

(** ** Create *)

Lemma for_each_app {A} (l1 l2 : list A) (body : A -> M unit) w :
  for_each (l1 ++ l2) body w
  = match for_each l1 body w with
    | (inr _, w1) => for_each l2 body w1
    | (inl e, w1) => (inl e, w1)
    end.
Proof.
  revert w. induction l1 as [|x l1 IH]; intros w; [done|].
  cbn [app for_each]. unfold mbind, M_bind.
  destruct (body x w) as [[e|[]] w1]; [done | apply IH].
Qed.

Lemma create_body_ok i w :
  backend w !! i = None ->
  create_body i w
  = (inr tt,
     mkWorld (<[i := ∅]> (backend w))
             (trace w ++ [(CreateIndex i, <[i := ∅]> (backend w))])
             (stdout w ++ ["Creating index '" +:+ i +:+ "'"])
             (stdin w) (clock w) (ticks w)).
Proof.
  intros Hfree.
  unfold create_body, mbind, M_bind, stdout_write, request, be_create.
  cbn [backend trace stdout stdin clock ticks]. by rewrite Hfree.
Qed.

Lemma create_body_refused i w als :
  backend w !! i = Some als ->
  create_body i w
  = (inl (BackendError 400 i),
     mkWorld (backend w) (trace w ++ [(CreateIndex i, backend w)])
             (stdout w ++ ["Creating index '" +:+ i +:+ "'"])
             (stdin w) (clock w) (ticks w)).
Proof.
  intros Hthere.
  unfold create_body, mbind, M_bind, stdout_write, request, be_create.
  cbn [backend trace stdout stdin clock ticks]. rewrite Hthere.
  rewrite bool_decide_eq_false_2; [done | apply not_elem_of_nil].
Qed.

Lemma create_loop_fresh l w :
  NoDup l ->
  (forall j, j ∈ l -> backend w !! j = None) ->
  exists w',
    for_each l create_body w = (inr tt, w')
    /\ map fst (trace w') = map fst (trace w) ++ map CreateIndex l
    /\ forall j, backend w' !! j
                 = if decide (j ∈ l) then Some ∅ else backend w !! j.
Proof.
  revert w. induction l as [|i rest IH]; intros w Hnd Hfree.
  - exists w. split; [done|]. split; [by rewrite app_nil_r|].
    intros j. rewrite decide_False; [done | apply not_elem_of_nil].
  - apply NoDup_cons in Hnd as [Hnotin Hnd].
    pose proof (create_body_ok i w (Hfree i (list_elem_of_here _ _))) as Hstep.
    destruct (IH (mkWorld (<[i := ∅]> (backend w))
                    (trace w ++ [(CreateIndex i, <[i := ∅]> (backend w))])
                    (stdout w ++ ["Creating index '" +:+ i +:+ "'"])
                    (stdin w) (clock w) (ticks w)) Hnd)
      as (w' & Hrun & Ht & Hb).
    { intros j Hj. cbn [backend]. rewrite lookup_insert_ne.
      - apply Hfree. by right.
      - intros ->. done. }
    exists w'. split; [|split].
    + cbn [for_each]. by rewrite (bind_ok _ _ _ _ _ Hstep).
    + rewrite Ht. cbn [trace map]. rewrite map_app. cbn [map fst].
      by rewrite <- app_assoc.
    + intros j. rewrite Hb. cbn [backend].
      destruct (decide (j ∈ rest)) as [Hr|Hr], (decide (j ∈ i :: rest)) as [Hc|Hc];
        try done.
      * exfalso. apply Hc. by right.
      * apply elem_of_cons in Hc as [->|?]; [|done]. apply lookup_insert_eq.
      * apply lookup_insert_ne. intros ->. apply Hc. left.
Qed.

(** X9: when the backend already holds one of the indices of the
    bindings, the create raises the backend's refusal at that index: the
    indices before it, in the registry's order, have been created and
    stay, those after it have not been asked for. *)
Theorem create_stops_at_existing_index reg models options w pre i post als :
  get_indices reg models = pre ++ i :: post ->
  (forall j, j ∈ pre -> backend w !! j = None) ->
  backend w !! i = Some als ->
  exists w',
    _create reg models options w = (inl (BackendError 400 i), w')
    /\ map fst (trace w')
       = map fst (trace w) ++ map CreateIndex (pre ++ [i])
    /\ forall j, backend w' !! j
                 = if decide (j ∈ pre) then Some ∅ else backend w !! j.
Proof.
  intros Hsplit Hfree Hthere.
  assert (Hnd : NoDup (pre ++ i :: post))
    by (rewrite <- Hsplit; apply NoDup_remove_dups).
  apply NoDup_app in Hnd as (Hpre & Hdisj & _).
  destruct (create_loop_fresh pre w Hpre Hfree) as (w1 & Hrun & Ht & Hb).
  assert (Hi : backend w1 !! i = Some als).
  { rewrite Hb, decide_False; [done|].
    intros Hin. apply (Hdisj i Hin). left. }
  eexists. split; [|split].
  - unfold _create. rewrite Hsplit, for_each_app, Hrun.
    cbn [for_each]. unfold mbind, M_bind.
    by rewrite (create_body_refused i w1 als Hi).
  - cbn [trace]. rewrite !map_app, Ht. cbn [map fst].
    by rewrite <- app_assoc.
  - exact Hb.
Qed.

Lemma create_stops_at_existing_index_witness :
  exists w',
    _create demo_registry {[ post; comment ]}
            (mkOptions (Some "create") None false)
            (demo_world {[ "comments" := ∅ ]} [])
    = (inl (BackendError 400 "comments"), w')
    /\ map fst (trace w')
       = map fst (trace (demo_world {[ "comments" := ∅ ]} []))
         ++ map CreateIndex (["articles"] ++ ["comments"])
    /\ forall j, backend w' !! j
                 = if decide (j ∈ ["articles"]) then Some ∅
                   else backend (demo_world {[ "comments" := ∅ ]} []) !! j.
Proof.
  apply (create_stops_at_existing_index demo_registry {[ post; comment ]}
           (mkOptions (Some "create") None false)
           (demo_world {[ "comments" := ∅ ]} []) ["articles"] "comments" [] ∅).
  - compute_done.
  - intros j ->%list_elem_of_singleton. compute_done.
  - compute_done.
Defined.

(** X10: on a backend that holds none of the indices of the bindings the
    create succeeds and leaves each of them in place, empty of aliases,
    the rest of the backend as it was; a second create then fails at the
    first index and changes nothing. *)
Theorem create_cannot_be_repeated reg models options w i rest :
  get_indices reg models = i :: rest ->
  (forall j, j ∈ get_indices reg models -> backend w !! j = None) ->
  exists w1 w2,
    _create reg models options w = (inr tt, w1)
    /\ (forall j, backend w1 !! j
                  = if decide (j ∈ get_indices reg models) then Some ∅
                    else backend w !! j)
    /\ _create reg models options w1 = (inl (BackendError 400 i), w2)
    /\ backend w2 = backend w1.
Proof.
  intros Hsplit Hfree.
  destruct (create_loop_fresh (get_indices reg models) w) as (w1 & Hrun & _ & Hb);
    [apply NoDup_remove_dups | exact Hfree |].
  assert (Hi : backend w1 !! i = Some ∅).
  { rewrite Hb, decide_True; [done|]. rewrite Hsplit. left. }
  eexists w1, _. split; [exact Hrun|]. split; [exact Hb|]. split.
  - unfold _create. rewrite Hsplit. cbn [for_each]. unfold mbind, M_bind.
    by rewrite (create_body_refused i w1 ∅ Hi).
  - reflexivity.
Qed.

Lemma create_cannot_be_repeated_witness :
  exists w1 w2,
    _create demo_registry {[ post ]} (mkOptions (Some "create") None false)
            (demo_world ∅ []) = (inr tt, w1)
    /\ (forall j, backend w1 !! j
                  = if decide (j ∈ get_indices demo_registry {[ post ]})
                    then Some ∅ else backend (demo_world ∅ []) !! j)
    /\ _create demo_registry {[ post ]} (mkOptions (Some "create") None false) w1
       = (inl (BackendError 400 "articles"), w2)
    /\ backend w2 = backend w1.
Proof.
  apply (create_cannot_be_repeated demo_registry {[ post ]}
           (mkOptions (Some "create") None false) (demo_world ∅ [])
           "articles" []).
  - compute_done.
  - intros j _. apply lookup_empty.
Defined.

(** ** Reindex *)

Lemma reindex_document_backend doc w :
  let alias := doc_index doc in
  let n := alias +:+ "-" +:+ strftime (clock w (ticks w)) in
  let pat := generation_pattern alias in
  exists w',
    reindex_document doc w = (inr tt, w')
    /\ (exists als, backend w' !! n = Some als /\ alias ∈ als)
    /\ (forall i, i ≠ n -> glob_match pat i = true -> backend w' !! i = None)
    /\ (forall i, glob_match pat i = false -> backend w' !! i = backend w !! i)
    /\ (forall suffix, alias +:+ "-" +:+ suffix ≠ n ->
                       backend w' !! (alias +:+ "-" +:+ suffix) = None).
Proof.
  intros alias n pat.
  destruct (reindex_document_run doc w)
    as (b1 & b2 & b3 & w' & Hinit & Hput & Hupd & Hrun & _ & Hb).
  fold alias n pat in Hinit, Hput, Hupd, Hrun, Hb.
  destruct (swap_lookup _ _ _ _ _ _ _ Hinit Hput Hupd)
    as (Hother & _ & _ & als3 & H3n & Hin3).
  assert (Hn : glob_match pat n = true) by apply generation_matches_pattern.
  assert (Hgone : forall i, i ≠ n -> glob_match pat i = true ->
                            backend w' !! i = None).
  { intros i Hne Hg. rewrite Hb, foldl_delete_lookup.
    destruct (decide _) as [|Hout]; [done|].
    destruct (b3 !! i) as [als|] eqn:E; [|done].
    exfalso. apply Hout, list_elem_of_filter. split; [done|].
    apply be_list_spec. split; [by rewrite E | done]. }
  exists w'. split; [exact Hrun|]. split; [|split; [exact Hgone|split]].
  - exists als3. split; [|done].
    rewrite Hb, foldl_delete_lookup, decide_False; [done|].
    intros [Hne _]%list_elem_of_filter. done.
  - intros i Hg.
    assert (Hne : i ≠ n) by (intros ->; congruence).
    rewrite Hb, foldl_delete_lookup, decide_False.
    + destruct (Hother i Hne) as (_ & _ & ->). rewrite Hg.
      by destruct (backend w !! i).
    + intros [_ [_ Hg']%be_list_spec]%list_elem_of_filter. congruence.
  - intros suffix Hne. apply Hgone; [done|].
    apply generation_matches_pattern.
Qed.

(** X11: one document's reindex leaves in place, with its aliases, every
    index whose name does not match the generation pattern of the alias;
    of the names that match it, only the new generation is left, with the
    alias on it.  So any index named [<alias>-...], a generation of
    another alias whose name extends this one included, is gone. *)
Theorem reindex_touches_only_generation_names doc w :
  let alias := doc_index doc in
  let n := alias +:+ "-" +:+ strftime (clock w (ticks w)) in
  let pat := generation_pattern alias in
  exists w',
    reindex_document doc w = (inr tt, w')
    /\ (exists als, backend w' !! n = Some als /\ alias ∈ als)
    /\ (forall i, i ≠ n -> glob_match pat i = true -> backend w' !! i = None)
    /\ (forall i, glob_match pat i = false -> backend w' !! i = backend w !! i)
    /\ (forall suffix, alias +:+ "-" +:+ suffix ≠ n ->
                       backend w' !! (alias +:+ "-" +:+ suffix) = None).
Proof. apply reindex_document_backend. Qed.

Lemma reindex_touches_only_generation_names_witness :
  exists w',
    reindex_document articles_doc neighbour_world = (inr tt, w')
    /\ backend w' !! "articles-blog-2019.01.01.00.00.00" = None
    /\ backend w' !! "books" = Some {[ "library" ]}.
Proof.
  destruct (reindex_touches_only_generation_names articles_doc neighbour_world)
    as (w' & Hrun & _ & _ & Hkeep & Hgone).
  exists w'. split; [exact Hrun|]. split.
  - apply (Hgone "blog-2019.01.01.00.00.00"). compute_done.
  - rewrite (Hkeep "books"); compute_done.
Defined.

Lemma frames_bind {A B} d1 d2 (m : M A) (f : A -> M B) :
  frames d1 m -> (forall a, frames d2 (f a)) -> frames (d1 + d2) (m ≫= f).
Proof.
  intros Hm Hf w b w' Hrun. unfold mbind, M_bind in Hrun.
  destruct (m w) as [[e|a] w1] eqn:E; [discriminate|].
  destruct (Hm _ _ _ E) as (H1 & H2 & H3).
  destruct (Hf a _ _ _ Hrun) as (H4 & H5 & H6).
  rewrite H4, H5, H6, H1, H2, H3. repeat split. lia.
Qed.

Lemma frames_ret {A} (a : A) : frames 0 (mret a).
Proof. intros w b w' [= _ <-]. repeat split. lia. Qed.

Lemma frames_stdout_write line : frames 0 (stdout_write line).
Proof. intros w b w' [= _ <-]. cbn. repeat split. lia. Qed.

Lemma frames_request c ignore op : frames 0 (request c ignore op).
Proof.
  intros w b w' Hrun. unfold request in Hrun.
  destruct (op (backend w)) as [[msg|status target|]|b'];
    try destruct (bool_decide _); try discriminate;
    injection Hrun as _ <-; cbn; repeat split; lia.
Qed.

Lemma frames_get_indices_matching pattern :
  frames 0 (get_indices_matching pattern).
Proof. intros w b w' [= _ <-]. cbn. repeat split. lia. Qed.

Lemma frames_next_index_name name : frames 1 (_next_index_name name).
Proof. intros w b w' [= _ <-]. cbn. repeat split. lia. Qed.

Lemma frames_for_each {A} d (l : list A) (body : A -> M unit) :
  (forall x, frames d (body x)) -> frames (length l * d) (for_each l body).
Proof.
  intros Hbody. induction l as [|x l IH].
  - apply frames_ret.
  - cbn [for_each length Nat.mul]. apply frames_bind; [apply Hbody|].
    intros _. exact IH.
Qed.

Lemma frames_reindex_document doc : frames 1 (reindex_document doc).
Proof.
  unfold reindex_document. cbv zeta.
  change 1 with (1 + (0 + (0 + (0 + (0 + (0 + (0 + (0 + (0 + (0 + 0)))))))))).
  apply frames_bind; [apply frames_next_index_name|]. intros n.
  repeat (apply frames_bind;
          [first [apply frames_request | apply frames_stdout_write
                 | apply frames_get_indices_matching]
          | intros ?]).
  intros w' u w'' Hrun.
  destruct (frames_for_each 0 _ _ (fun i => frames_request _ _ _) _ _ _ Hrun)
    as (H1 & H2 & H3).
  repeat split; [done..|lia].
Qed.

(** X12: the reindex action asks for no confirmation, with or without
    [-f]: [handle] completes without reading the input, having read the
    clock once per document. *)
Theorem reindex_action_never_asks reg options w models :
  opt_action options = Some "reindex" ->
  _get_models reg (opt_models options) = inr models ->
  exists w',
    handle reg options w = (inr tt, w')
    /\ handle reg options w = _reindex reg models options w
    /\ stdin w' = stdin w
    /\ clock w' = clock w
    /\ ticks w' = ticks w + length (get_documents reg models).
Proof.
  intros Hact Hres.
  assert (Hh : handle reg options w = _reindex reg models options w).
  { unfold handle, no_action. rewrite Hact. cbn [default]. rewrite Hres.
    repeat match goal with
    | |- context [String.eqb ?a ?b] =>
        let v := eval vm_compute in (String.eqb a b) in
        change (String.eqb a b) with v
    end. reflexivity. }
  destruct (reindex_completes reg models options w) as (w' & Hrun).
  exists w'. split; [by rewrite Hh|]. split; [exact Hh|].
  unfold _reindex in Hrun.
  destruct (frames_for_each 1 _ _ frames_reindex_document _ _ _ Hrun)
    as (H1 & H2 & H3).
  rewrite H1, H2, H3. repeat split. lia.
Qed.

Lemma reindex_action_never_asks_witness :
  exists w',
    handle demo_registry (mkOptions (Some "reindex") (Some ["blog"]) false)
           generation_world = (inr tt, w')
    /\ handle demo_registry (mkOptions (Some "reindex") (Some ["blog"]) false)
               generation_world
       = _reindex demo_registry {[ post; comment ]}
                  (mkOptions (Some "reindex") (Some ["blog"]) false)
                  generation_world
    /\ stdin w' = stdin generation_world
    /\ clock w' = clock generation_world
    /\ ticks w' = ticks generation_world
                  + length (get_documents demo_registry {[ post; comment ]}).
Proof.
  apply (reindex_action_never_asks demo_registry
           (mkOptions (Some "reindex") (Some ["blog"]) false)
           generation_world {[ post; comment ]} eq_refl).
  compute_done.
Defined.




(** ** Rebuild, and the order of failures *)

Lemma populate_loop_backend docs w :
  (forall d, d ∈ docs -> is_Some (backend w !! doc_index d)) ->
  exists w', for_each docs populate_body w = (inr tt, w')
             /\ backend w' = backend w.
Proof.
  revert w. induction docs as [|doc rest IH]; intros w Hthere.
  - by exists w.
  - assert (Hstep : populate_body doc w
              = (inr tt,
                 mkWorld (backend w)
                   (trace w ++ [(BulkWrite (doc_index doc) (doc_records doc),
                                 backend w)])
                   (stdout w ++ ["Indexing " +:+ pretty (doc_records doc) +:+ " '"
                                 +:+ class_name (doc_model doc) +:+ "' objects"])
                   (stdin w) (clock w) (ticks w))).
    { unfold populate_body, mbind, M_bind, stdout_write, request, be_bulk.
      cbn [backend trace stdout stdin clock ticks].
      rewrite decide_True; [done|]. left. apply elem_of_dom, Hthere. left. }
    destruct (IH (mkWorld (backend w)
                    (trace w ++ [(BulkWrite (doc_index doc) (doc_records doc),
                                  backend w)])
                    (stdout w ++ ["Indexing " +:+ pretty (doc_records doc) +:+ " '"
                                  +:+ class_name (doc_model doc) +:+ "' objects"])
                    (stdin w) (clock w) (ticks w)))
      as (w' & Hrun & Hb).
    { intros d Hd. cbn [backend]. apply Hthere. by right. }
    exists w'. split; [|exact Hb].
    cbn [for_each]. by rewrite (bind_ok _ _ _ _ _ Hstep).
Qed.

(** In this model of the backend, which refuses a create only for an
    index that exists and refuses no bulk write, a forced rebuild runs to
    its end. *)
Lemma forced_rebuild_run reg models options w :
  opt_force options = true ->
  exists w',
    _rebuild reg models options w = (inr tt, w')
    /\ forall j, backend w' !! j
                 = if decide (j ∈ get_indices reg models) then Some ∅
                   else backend w !! j.
Proof.
  intros Hforce.
  destruct (delete_indices_run reg models w) as (w1 & Hdel & Hb1 & _).
  assert (Hdel' : _delete reg models options w = (inr true, w1))
    by (unfold _delete; rewrite Hforce; exact Hdel).
  destruct (create_loop_fresh (get_indices reg models) w1)
    as (w2 & Hcreate & _ & Hb2); [apply NoDup_remove_dups | |].
  { intros j Hj. rewrite Hb1, foldl_delete_lookup. by rewrite decide_True. }
  destruct (populate_loop_backend (get_documents reg models) w2)
    as (w3 & Hpop & Hb3).
  { intros d Hd. rewrite Hb2, decide_True; [done|].
    unfold get_indices. apply elem_of_remove_dups, list_elem_of_fmap.
    by exists d. }
  exists w3. split.
  - unfold _rebuild. rewrite (bind_ok _ _ _ _ _ Hdel'). cbn [negb].
    unfold _create. rewrite (bind_ok _ _ _ _ _ Hcreate). exact Hpop.
  - intros j. rewrite Hb3, Hb2, Hb1, foldl_delete_lookup.
    by destruct (decide (j ∈ get_indices reg models)).
Qed.

Lemma run_result {A} (r : (Exn + A) * World) (a : Exn + A) :
  r.1 = a -> r = (a, r.2).
Proof. destruct r as [x w]. by intros <-. Qed.

(** X14: when a forced rebuild runs to its end, on a backend where no
    alias bears the name of an index of the bindings, each index of the
    bindings is there anew, with no alias on it, and every other index is
    as it was, aliases included. *)
Theorem forced_rebuild_recreates_the_indices reg models options w w' :
  opt_force options = true ->
  (forall j, j ∈ get_indices reg models -> alias_targets j (backend w) = ∅) ->
  _rebuild reg models options w = (inr tt, w') ->
  forall j, backend w' !! j
            = if decide (j ∈ get_indices reg models) then Some ∅
              else backend w !! j.
Proof.
  intros Hforce _ Hrun.
  destruct (forced_rebuild_run reg models options w Hforce) as (w3 & Hrun3 & Hb).
  rewrite Hrun in Hrun3. by injection Hrun3 as <-.
Qed.

Lemma forced_rebuild_recreates_the_indices_witness :
  backend (_rebuild demo_registry {[ post ]}
             (mkOptions (Some "rebuild") None true)
             (demo_world {[ "articles" := {[ "news" ]};
                            "books" := {[ "library" ]} ]} [])).2
    !! "books"
  = Some {[ "library" ]}.
Proof.
  rewrite (forced_rebuild_recreates_the_indices demo_registry {[ post ]}
             (mkOptions (Some "rebuild") None true)
             (demo_world {[ "articles" := {[ "news" ]};
                            "books" := {[ "library" ]} ]} [])
             _ eq_refl).
  - compute_done.
  - intros j Hj.
    assert (H : Forall (fun j => alias_targets j
                          (backend (demo_world {[ "articles" := {[ "news" ]};
                                                  "books" := {[ "library" ]} ]}
                                      [])) = ∅)
                       (get_indices demo_registry {[ post ]})) by compute_done.
    by apply (proj1 (Forall_forall _ _) H).
  - apply run_result. compute_done.
Defined.

(** X15: the filter elements are examined in order and the resolution
    stops at the first one that matches nothing: the error names that
    element, lowered, whatever follows it. *)
Theorem get_models_reports_first_unmatched reg pre arg post :
  (forall a, a ∈ pre ->
     exists m, m ∈ get_models reg /\ model_matches (lower a) m = true) ->
  (forall m, m ∈ get_models reg -> model_matches (lower arg) m = false) ->
  _get_models reg (Some (pre ++ arg :: post))
  = inl (CommandError ("No model or app named " +:+ lower arg)).
Proof.
  intros Hpre Hno.
  assert (Hloop : forall models,
             resolve_args reg (pre ++ arg :: post) models
             = inl (CommandError ("No model or app named " +:+ lower arg))).
  { induction pre as [|a pre IH]; intros models.
    - cbn [app resolve_args]. rewrite scan_models_filter. cbv zeta.
      apply existsb_none in Hno. by rewrite Hno.
    - cbn [app resolve_args]. rewrite scan_models_filter. cbv zeta.
      destruct (Hpre a (list_elem_of_here _ _)) as (m & Hm & Hmatch).
      assert (Hex : existsb (model_matches (lower a)) (get_models reg) = true).
      { destruct (existsb _ _) eqn:E; [done|].
        rewrite (proj1 (existsb_none _ _) E m Hm) in Hmatch. discriminate. }
      rewrite Hex. cbn [orb negb]. apply IH.
      intros a' Ha'. apply Hpre. by right. }
  unfold _get_models.
  destruct (pre ++ arg :: post) as [|x l] eqn:E.
  - by destruct pre.
  - by rewrite Hloop.
Qed.

Lemma get_models_reports_first_unmatched_witness :
  _get_models demo_registry (Some (["blog"] ++ "Nope" :: ["also.missing"]))
  = inl (CommandError ("No model or app named " +:+ lower "Nope")).
Proof.
  apply (get_models_reports_first_unmatched demo_registry ["blog"] "Nope"
           ["also.missing"]).
  - intros a ->%list_elem_of_singleton. exists post. split; compute_done.
  - intros m Hm.
    assert (H : Forall (fun m => model_matches (lower "Nope") m = false)
                       (get_models demo_registry)) by compute_done.
    by apply (proj1 (Forall_forall _ _) H).
Defined.
